(** * ai-dns-server: the handler registry, the generative gateway and the
      query pipeline of [index.js], embedded in Rocq.

    JavaScript strings are sequences of code units; they are modelled by
    [string], one character per code unit, so that [String.length] is the
    [.length] of the source.  Counters are the non-negative integers that
    [++] produces from [0]; they are modelled by [N] and printed in decimal,
    as template literals print integral numbers. *)

From Stdlib Require Import ZArith NArith Ascii String DecimalString Lia.
From stdpp Require Import base option list strings gmap fin_maps.

Local Open Scope string_scope.

(** ** String primitives of the host language *)

Module JS.

(** Case folding of the code units a pattern written in ASCII can match:
    under the [i] flag an ASCII letter of the pattern matches exactly its
    two ASCII cases. *)
Definition fold_case (c : ascii) : ascii :=
  let n := nat_of_ascii c in
  if (65 <=? n)%nat && (n <=? 90)%nat then ascii_of_nat (n + 32) else c.

Definition eqb_ci (a b : ascii) : bool :=
  Ascii.eqb (fold_case a) (fold_case b).

(** [match_here p s]: the literal pattern [p] matches at the start of [s],
    ignoring case; the unmatched rest of [s] is returned. *)
Fixpoint match_here (p s : string) : option string :=
  match p with
  | EmptyString => Some s
  | String a p' =>
      match s with
      | EmptyString => None
      | String b s' => if eqb_ci a b then match_here p' s' else None
      end
  end.

(** [s.replace(/p/i, '')] for a literal pattern [p]: the leftmost match,
    wherever it is, is deleted; without a match [s] is returned. *)
Fixpoint remove_first_ci (p s : string) : string :=
  match match_here p s with
  | Some rest => rest
  | None =>
      match s with
      | EmptyString => EmptyString
      | String c s' => String c (remove_first_ci p s')
      end
  end.

(** [s.split(sep)] for a one-character separator: never the empty list. *)
Fixpoint split (sep : ascii) (s : string) : list string :=
  match s with
  | EmptyString => [EmptyString]
  | String c s' =>
      if Ascii.eqb c sep then EmptyString :: split sep s'
      else match split sep s' with
           | [] => [String c EmptyString]
           | w :: ws => String c w :: ws
           end
  end.

(** [l.join(sep)]. *)
Fixpoint join (sep : string) (l : list string) : string :=
  match l with
  | [] => EmptyString
  | [w] => w
  | w :: ws => w +:+ sep +:+ join sep ws
  end.

(** [s.substring(0, n)]. *)
Definition substring_to (n : nat) (s : string) : string :=
  String.substring 0 n s.

(** [`${n}`] for a counter. *)
Definition number_to_string (n : N) : string :=
  NilZero.string_of_uint (N.to_uint n).

(** [`${x}`] for a binding that destructuring may have left undefined. *)
Definition show (x : option string) : string :=
  match x with
  | Some s => s
  | None => "undefined"
  end.

(** [x || d] on strings: the empty string and [undefined] are falsy. *)
Definition or_else (x : option string) (d : string) : string :=
  match x with
  | Some EmptyString | None => d
  | Some s => s
  end.

End JS.

(** ** Configuration and data model *)

(** [CONFIG]; [PORT] comes from the environment and is used by no code
    modelled here. *)
Module CONFIG.
Definition CACHE_TTL : Z := 3600.
Definition MAX_RESPONSE_LENGTH : nat := 255.
Definition RATE_LIMIT_WINDOW : Z := 60000.
Definition RATE_LIMIT_MAX : N := 100.
End CONFIG.

(** The object every handler returns: [{ answer, cached, handler }]. *)
Record Answer : Type := mkAnswer {
  answer : string;
  cached : bool;
  handler : string
}.

(** The [stats] object. *)
Record Stats : Type := mkStats {
  totalQueries : N;
  cacheHits : N;
  cacheMisses : N;
  errors : N;
  byCategory : gmap string N
}.

(** A cache entry and a rate-limit record, as the data model describes
    them; times are in milliseconds. *)
Record CacheEntry : Type := mkCacheEntry {
  value : Answer;
  insertedAt : Z;
  ttl : Z
}.

Record RateLimitRecord : Type := mkRateLimitRecord {
  windowStart : Z;
  count : N
}.

(** The module-level state: [stats], [cache] and [rateLimitMap], together
    with the number of calls made so far to the external collaborators (the
    evaluator and the generative backend), which lets their replies differ
    from one call to the next. *)
Record World : Type := mkWorld {
  stats : Stats;
  cache : gmap string CacheEntry;
  rateLimitMap : gmap string RateLimitRecord;
  external : nat
}.

Definition set_stats (s : Stats) (w : World) : World :=
  mkWorld s (cache w) (rateLimitMap w) (external w).

Definition tick (w : World) : World :=
  mkWorld (stats w) (cache w) (rateLimitMap w) (S (external w)).

Definition initial_stats : Stats := mkStats 0 0 0 0 ∅.

Definition initial_world : World := mkWorld initial_stats ∅ ∅ 0.

(** ** Exceptions and the state-and-exception monad *)

Record JsError : Type := mkError {
  error_name : string;
  message : string
}.

Inductive Outcome (A : Type) : Type :=
| Return (a : A)
| Throw (e : JsError).

Arguments Return {A} a.
Arguments Throw {A} e.

Definition M (A : Type) : Type := World -> Outcome A * World.

Definition ret {A} (a : A) : M A := fun w => (Return a, w).

Definition throw {A} (e : JsError) : M A := fun w => (Throw e, w).

Definition bind {A B} (m : M A) (k : A -> M B) : M B :=
  fun w =>
    match m w with
    | (Return a, w') => k a w'
    | (Throw e, w') => (Throw e, w')
    end.

(** [try { body } catch (error) { handle error }] *)
Definition try_catch {A} (body : M A) (handle : JsError -> M A) : M A :=
  fun w =>
    match body w with
    | (Return a, w') => (Return a, w')
    | (Throw e, w') => handle e w'
    end.

Definition get_stats : M Stats := fun w => (Return (stats w), w).

Definition put_stats (s : Stats) : M unit := fun w => (Return tt, set_stats s w).

Notation "'let*' x ':=' m 'in' k" := (bind m (fun x => k))
  (at level 10, x name, m at level 100, k at level 200, only parsing).

(** Assignment to a binding declared with [const]: the right-hand side has
    been evaluated, the binding is immutable, and the assignment throws. *)
Definition assign_const {A} (rhs : A) : M A :=
  throw (mkError "TypeError" "Assignment to constant variable.").

Definition dquote : string := String (ascii_of_nat 34) EmptyString.

(** ** The handlers and the generative gateway *)

Section Program.

(** [evaluate] of the expression library and [ai.models.generateContent]
    of the backend client are external.  Each takes the number of external
    calls made before it, and either returns or throws: the evaluator
    returns its result as a template literal prints it, the backend the
    [text] property of its response ([None] when it is undefined). *)
Variable evaluate : nat -> string -> Outcome string.
Variable generateContent : nat -> string -> Outcome (option string).

Definition call_evaluate (expression : string) : M string :=
  fun w => (evaluate (external w) expression, tick w).

Definition call_generateContent (prompt : string) : M (option string) :=
  fun w => (generateContent (external w) prompt, tick w).

(** [stats.byCategory[category] = (stats.byCategory[category] || 0) + 1] *)
Definition bump_category (category : string) : M unit :=
  let* s := get_stats in
  put_stats (mkStats (totalQueries s) (cacheHits s) (cacheMisses s) (errors s)
               (<[category := (default 0 (byCategory s !! category) + 1)%N]>
                  (byCategory s))).

(** [stats.errors++] *)
Definition bump_errors : M unit :=
  let* s := get_stats in
  put_stats (mkStats (totalQueries s) (cacheHits s) (cacheMisses s)
               (errors s + 1)%N (byCategory s)).

(** [callAI(prompt, category = 'general')].  The binding [answer] is
    declared with [const], and the branch taken for a long text assigns to
    it. *)
Definition callAI (prompt : string) (category : option string) : M Answer :=
  let category := default "general" category in
  try_catch
    (let* result := call_generateContent prompt in
     let answer := JS.or_else result "No response generated." in
     let* answer :=
       (if (CONFIG.MAX_RESPONSE_LENGTH <? String.length answer)%nat
        then assign_const
               (JS.substring_to (CONFIG.MAX_RESPONSE_LENGTH - 3) answer +:+ "...")
        else ret answer) in
     let* _ := bump_category category in
     ret (mkAnswer answer false "ai"))
    (fun error =>
       let* _ := bump_errors in
       throw error).

(** [query.replace(/<command>\./i, '').split('.')], the parsing step every
    handler starts with. *)
Definition labels_after (command query : string) : list string :=
  JS.split "." (JS.remove_first_ci (command +:+ ".") query).

(** [query.replace(/<command>\./i, '').split('.').join(' ')] *)
Definition words_after (command query : string) : string :=
  JS.join " " (labels_after command query).

(** *** The registry [handlers] *)

Definition handlers_calc (query : string) : M Answer :=
  try_catch
    (let expression := words_after "calc" query in
     let* result := call_evaluate expression in
     ret (mkAnswer (expression +:+ " = " +:+ result) false "calc"))
    (fun error =>
       ret (mkAnswer ("Math error: " +:+ message error) false "calc")).

Definition handlers_translate (query : string) : M Answer :=
  let parts := labels_after "translate" query in
  let from := parts !! 0%nat in
  let to := parts !! 1%nat in
  let words := drop 2 parts in
  let text := JS.join " " words in
  let prompt :=
    "Translate " +:+ dquote +:+ text +:+ dquote +:+ " from " +:+ JS.show from
    +:+ " to " +:+ JS.show to
    +:+ ". Reply with ONLY the translation, no explanations." in
  callAI prompt (Some "translation").

Definition handlers_code (query : string) : M Answer :=
  let request := words_after "code" query in
  let prompt :=
    "Provide a one-line code snippet for: " +:+ request
    +:+ ". Format as: language: code" in
  callAI prompt (Some "code").

Definition handlers_timezone (query : string) : M Answer :=
  let location := words_after "timezone" query in
  let prompt :=
    "What is the current timezone for " +:+ location
    +:+ "? Reply with timezone name and UTC offset only (e.g., "
    +:+ dquote +:+ "EST UTC-5" +:+ dquote +:+ ")." in
  callAI prompt (Some "timezone").

Definition handlers_convert (query : string) : M Answer :=
  let parts := labels_after "convert" query in
  let amount := parts !! 0%nat in
  let from := parts !! 1%nat in
  let to := parts !! 2%nat in
  let prompt :=
    "Convert " +:+ JS.show amount +:+ " " +:+ JS.show from +:+ " to "
    +:+ JS.show to
    +:+ ". Reply with just the converted amount and currency (e.g., "
    +:+ dquote +:+ "100 USD = 85 EUR" +:+ dquote +:+ ")." in
  callAI prompt (Some "conversion").

Definition handlers_spell (query : string) : M Answer :=
  let word := words_after "spell" query in
  let prompt :=
    "Is " +:+ dquote +:+ word +:+ dquote
    +:+ " spelled correctly? If not, provide the correct spelling. Reply in format: "
    +:+ dquote +:+ "Correct" +:+ dquote +:+ " or " +:+ dquote
    +:+ "Incorrect: [correct spelling]" +:+ dquote +:+ "." in
  callAI prompt (Some "spell").

Definition handlers_onthisday (query : string) : M Answer :=
  let date := words_after "onthisday" query in
  let prompt :=
    "What significant event happened on " +:+ date
    +:+ "? Reply with one brief historical fact." in
  callAI prompt (Some "history").

Definition handlers_unit (query : string) : M Answer :=
  try_catch
    (let input := words_after "unit" query in
     let* result := call_evaluate input in
     ret (mkAnswer (input +:+ " = " +:+ result) false "unit"))
    (fun error =>
       ret (mkAnswer ("Conversion error: " +:+ message error) false "unit")).

Definition handlers_acronym (query : string) : M Answer :=
  let abbr := words_after "acronym" query in
  let prompt :=
    "What does the acronym " +:+ dquote +:+ abbr +:+ dquote
    +:+ " stand for? Provide the most common meaning in one sentence." in
  callAI prompt (Some "acronym").

Definition handlers_tip (query : string) : M Answer :=
  let topic := words_after "tip" query in
  let prompt :=
    "Give one practical tip about " +:+ topic +:+ " in one sentence." in
  callAI prompt (Some "tip").

Definition handlers_weather (query : string) : M Answer :=
  let location := words_after "weather" query in
  let prompt :=
    "Describe the typical weather in " +:+ location +:+ " in one sentence." in
  callAI prompt (Some "weather").

Definition handlers_fact (query : string) : M Answer :=
  let topic := words_after "fact" query in
  let prompt :=
    "Share one interesting fact about " +:+ topic +:+ " in one sentence." in
  callAI prompt (Some "fact").

Definition handlers_define (query : string) : M Answer :=
  let word := words_after "define" query in
  let prompt :=
    "Define " +:+ dquote +:+ word +:+ dquote +:+ " in one concise sentence." in
  callAI prompt (Some "definition").

Definition handlers_stats : M Answer :=
  let* stats := get_stats in
  let summary :=
    "Queries:" +:+ JS.number_to_string (totalQueries stats)
    +:+ " Cache:" +:+ JS.number_to_string (cacheHits stats)
    +:+ "/" +:+ JS.number_to_string (totalQueries stats)
    +:+ " Errors:" +:+ JS.number_to_string (errors stats) in
  ret (mkAnswer summary false "stats").

Definition handlers_help : M Answer :=
  let commands :=
    "Commands: calc translate code timezone convert spell onthisday unit acronym tip weather fact define stats help" in
  ret (mkAnswer commands false "help").

(** An earlier revision of the registry, kept in the same file, also has
    [ip]. *)
Definition handlers_ip (query : string) : M Answer :=
  let location := words_after "ip" query in
  let prompt :=
    "What is a common public DNS server IP for " +:+ location
    +:+ "? Reply with ONLY the IP address." in
  callAI prompt (Some "ip").

(** The keys of [handlers], and the function stored under each. *)
Inductive Command : Type :=
| Calc | Translate | Code | Timezone | Convert | Spell | Onthisday | Unit
| Acronym | Tip | Weather | Fact | Define | StatsCmd | Help.

Definition command_name (c : Command) : string :=
  match c with
  | Calc => "calc" | Translate => "translate" | Code => "code"
  | Timezone => "timezone" | Convert => "convert" | Spell => "spell"
  | Onthisday => "onthisday" | Unit => "unit" | Acronym => "acronym"
  | Tip => "tip" | Weather => "weather" | Fact => "fact"
  | Define => "define" | StatsCmd => "stats" | Help => "help"
  end.

Definition all_commands : list Command :=
  [Calc; Translate; Code; Timezone; Convert; Spell; Onthisday; Unit;
   Acronym; Tip; Weather; Fact; Define; StatsCmd; Help].

Definition handlers (c : Command) (query : string) : M Answer :=
  match c with
  | Calc => handlers_calc query
  | Translate => handlers_translate query
  | Code => handlers_code query
  | Timezone => handlers_timezone query
  | Convert => handlers_convert query
  | Spell => handlers_spell query
  | Onthisday => handlers_onthisday query
  | Unit => handlers_unit query
  | Acronym => handlers_acronym query
  | Tip => handlers_tip query
  | Weather => handlers_weather query
  | Fact => handlers_fact query
  | Define => handlers_define query
  | StatsCmd => handlers_stats
  | Help => handlers_help
  end.

(** [handlers[name]] restricted to the registry's own keys. *)
Definition lookup_handler (name : string) : option Command :=
  find (fun c => String.eqb (command_name c) name) all_commands.

End Program.

(** ** The query pipeline around the handlers

    [index.js] declares [cache] and [rateLimitMap] and imports the UDP
    server, but holds no code that serves a query.  The components below
    are modelled from the design document; queries are served one at a
    time. *)

(** Modelled from the spec: an inbound query, which the missing serving
    code receives: who asks, when (milliseconds), and for which name. *)
Record Request : Type := mkRequest {
  clientKey : string;
  now : Z;
  rawName : string
}.

(** Modelled from the spec: the parsed query [{ rawName, command, args }]
    of the data model. *)
Record Query : Type := mkQuery {
  query_rawName : string;
  command : string;
  args : list string
}.

(** Modelled from the spec: the verdict of the rate limiter's [check]. *)
Inductive Verdict : Type := allow | reject.

(** Lower-casing of the ASCII letters of a string, the folding under which
    the [i] flag compares a name with a pattern. *)
Definition to_lower (s : string) : string :=
  string_of_list_ascii (map JS.fold_case (list_ascii_of_string s)).

(** [labels] without the labels of [zone] at its end, when it ends with
    them (ignoring case). *)
Fixpoint strip_suffix (zone labels : list string) : list string :=
  if decide (map to_lower labels = map to_lower zone) then []
  else match labels with
       | [] => []
       | l :: ls => l :: strip_suffix zone ls
       end.

(** Modelled from the spec: the Command Parser, which is specified to strip
    the command prefix (ignoring case) from the front of the name, strip the
    resolved top-level suffix, and split the remaining labels on dots.  The
    command is the leading label, normalised to lower case. *)
Definition parse (suffix rawName : string) : Query :=
  match strip_suffix (JS.split "." suffix) (JS.split "." rawName) with
  | [] => mkQuery rawName EmptyString []
  | c :: rest => mkQuery rawName (to_lower c) rest
  end.

(** Modelled from the spec: the Rate Limiter's [check].  The first request
    of a client creates a record with [windowStart = now] and [count = 1];
    later requests within the window increment the count and are rejected
    once it exceeds the maximum; when [now - windowStart] has reached the
    window duration the record is reset to [windowStart = now], [count = 1]. *)
Definition rate_check (client : string) (t : Z)
    (m : gmap string RateLimitRecord) : Verdict * gmap string RateLimitRecord :=
  match m !! client with
  | None => (allow, <[client := mkRateLimitRecord t 1]> m)
  | Some r =>
      if (CONFIG.RATE_LIMIT_WINDOW <=? t - windowStart r)%Z
      then (allow, <[client := mkRateLimitRecord t 1]> m)
      else
        let c := (count r + 1)%N in
        (if (c <=? CONFIG.RATE_LIMIT_MAX)%N then allow else reject,
         <[client := mkRateLimitRecord (windowStart r) c]> m)
  end.

(** Modelled from the spec: the Response Cache.  [cache_get] is a miss for
    an absent entry and for one whose time to live has elapsed; [cache_set]
    stores a copy of the answer with the insertion time and the configured
    time to live (seconds, here in milliseconds). *)
Definition cache_get (key : string) (t : Z)
    (c : gmap string CacheEntry) : option Answer :=
  match c !! key with
  | Some e => if (t <? insertedAt e + ttl e)%Z then Some (value e) else None
  | None => None
  end.

Definition cache_set (key : string) (a : Answer) (t : Z)
    (c : gmap string CacheEntry) : gmap string CacheEntry :=
  <[key := mkCacheEntry a t (CONFIG.CACHE_TTL * 1000)]> c.

(** Modelled from the spec: the truncation of an answer to the TXT bound,
    cutting to 252 and appending the three-character ellipsis marker. *)
Definition truncate (a : Answer) : Answer :=
  if (CONFIG.MAX_RESPONSE_LENGTH <? String.length (answer a))%nat
  then mkAnswer
         (JS.substring_to (CONFIG.MAX_RESPONSE_LENGTH - 3) (answer a) +:+ "...")
         (cached a) (handler a)
  else a.

Definition mark_cached (a : Answer) : Answer :=
  mkAnswer (answer a) true (handler a).

Definition count_query (s : Stats) : Stats :=
  mkStats (totalQueries s + 1) (cacheHits s) (cacheMisses s) (errors s) (byCategory s).

Definition count_hit (s : Stats) : Stats :=
  mkStats (totalQueries s) (cacheHits s + 1) (cacheMisses s) (errors s) (byCategory s).

Definition count_miss (s : Stats) : Stats :=
  mkStats (totalQueries s) (cacheHits s) (cacheMisses s + 1) (errors s) (byCategory s).

Definition count_error (s : Stats) : Stats :=
  mkStats (totalQueries s) (cacheHits s) (cacheMisses s) (errors s + 1) (byCategory s).

Definition set_cache (c : gmap string CacheEntry) (w : World) : World :=
  mkWorld (stats w) c (rateLimitMap w) (external w).

Definition set_rateLimitMap (m : gmap string RateLimitRecord) (w : World) : World :=
  mkWorld (stats w) (cache w) m (external w).

Section Pipeline.

Variable evaluate : nat -> string -> Outcome string.
Variable generateContent : nat -> string -> Outcome (option string).

(** The resolved top-level suffix, and the two fixed texts the design
    names without spelling them out: the rate-limit rejection and the
    answer given when a handler fails, with the handler name such
    answers carry. *)
Variable suffix : string.
Variable rateLimitText : string.
Variable unavailableText : string.
Variable fallbackName : string.

Definition rateLimitAnswer : Answer := mkAnswer rateLimitText false fallbackName.
Definition unavailableAnswer : Answer := mkAnswer unavailableText false fallbackName.

(** Modelled from the spec: the normalised form of a parsed query, the
    command and its arguments joined by dots.  It is the cache key, and the
    string the handler is invoked on, since the handlers of the source take
    a name that starts with their command label. *)
Definition normalized (q : Query) : string :=
  JS.join "." (command q :: args q).

(** Modelled from the spec: the missing registry lookup and invocation; an
    unknown command falls back to the answer of [help]. *)
Definition invoke (q : Query) : M Answer :=
  match lookup_handler (command q) with
  | Some c => handlers evaluate generateContent c (normalized q)
  | None => handlers_help
  end.

(** Modelled from the spec: steps 1 and 2 of the missing Dispatcher, which
    count the query and consult the rate limiter. *)
Definition admission (r : Request) (w : World) : Verdict * World :=
  let w1 := set_stats (count_query (stats w)) w in
  let '(d, m) := rate_check (clientKey r) (now r) (rateLimitMap w1) in
  (d, set_rateLimitMap m w1).

(** Modelled from the spec: steps 3 to 6 of the missing Dispatcher, which
    parse, look the key up in the cache (on a hit marking the answer cached
    and counting the hit), and on a miss count it and invoke the handler,
    storing its answer on success, building the fallback answer and
    counting an error on failure. *)
Definition process (r : Request) (w : World) : Answer * World :=
  let q := parse suffix (rawName r) in
  let key := normalized q in
  match cache_get key (now r) (cache w) with
  | Some a => (mark_cached a, set_stats (count_hit (stats w)) w)
  | None =>
      let w1 := set_stats (count_miss (stats w)) w in
      match invoke q w1 with
      | (Return a, w2) => (a, set_cache (cache_set key a (now r) (cache w2)) w2)
      | (Throw _, w2) => (unavailableAnswer, set_stats (count_error (stats w2)) w2)
      end
  end.

(** Modelled from the spec: the Dispatcher, which runs the eight steps of
    its contract in order; steps 7 and 8 truncate the answer and hand it
    back, for a rejected query as for a served one. *)
Definition dispatch (r : Request) (w : World) : Answer * World :=
  match admission r w with
  | (reject, w1) => (truncate rateLimitAnswer, w1)
  | (allow, w1) => let '(a, w2) := process r w1 in (truncate a, w2)
  end.

(** Modelled from the spec: the missing serving loop, which serves a
    sequence of queries one after the other; the log keeps for each the
    limiter's verdict and the answer handed back. *)
Fixpoint serve (rs : list Request) (w : World)
    : list (Request * Verdict * Answer) * World :=
  match rs with
  | [] => ([], w)
  | r :: rs' =>
      let '(a, w1) := dispatch r w in
      let '(log, w2) := serve rs' w1 in
      ((r, fst (admission r w), a) :: log, w2)
  end.

End Pipeline.

(** ** Vocabulary of the statements *)

(** Two worlds hold the same stores. *)
Definition same_stores (w1 w2 : World) : Prop :=
  cache w1 = cache w2 /\ rateLimitMap w1 = rateLimitMap w2.

(** Two worlds agree outside the stores. *)
Definition agree (w1 w2 : World) : Prop :=
  stats w1 = stats w2 /\ external w1 = external w2.

(** A computation that neither writes the stores nor reads them: it hands
    both back as it found them, and from two worlds that agree outside the
    stores it produces the same outcome and worlds that still agree. *)
Definition stats_only {A} (m : M A) : Prop :=
  (forall w, same_stores (snd (m w)) w) /\
  (forall w1 w2, agree w1 w2 ->
     fst (m w1) = fst (m w2) /\ agree (snd (m w1)) (snd (m w2))).

(** A property of every answer a computation returns. *)
Definition returns {A} (P : A -> Prop) (m : M A) : Prop :=
  forall w a w', m w = (Return a, w') -> P a.

(** The error thrown by an assignment to a [const] binding. *)
Definition const_assignment_error : JsError :=
  mkError "TypeError" "Assignment to constant variable.".

(** The statistics after one more answer of a category. *)
Definition count_category (category : string) (s : Stats) : Stats :=
  mkStats (totalQueries s) (cacheHits s) (cacheMisses s) (errors s)
    (<[category := (default 0 (byCategory s !! category) + 1)%N]> (byCategory s)).

(** A request of client [c] at time [t] opens a window: the client has no
    record yet, or the window of its record has elapsed. *)
Definition window_opens (m : gmap string RateLimitRecord) (c : string) (t : Z)
    : Prop :=
  match m !! c with
  | None => True
  | Some rec => (CONFIG.RATE_LIMIT_WINDOW <= t - windowStart rec)%Z
  end.

(** The verdict on the request that raises a client's count to [k]. *)
Definition verdict_at (k : N) : Verdict :=
  if (k <=? CONFIG.RATE_LIMIT_MAX)%N then allow else reject.

(** The verdicts on [n] further requests of a client whose count is [k]. *)
Fixpoint verdicts (k : N) (n : nat) : list Verdict :=
  match n with
  | O => []
  | S n' => verdict_at (k + 1) :: verdicts (k + 1) n'
  end.

(** The verdicts a log holds for the requests of one client. *)
Definition verdicts_of (c : string) (log : list (Request * Verdict * Answer))
    : list Verdict :=
  map (fun e => snd (fst e)) (filter (fun e => clientKey (fst (fst e)) = c) log).

(** The requests of one client among a sequence of requests. *)
Definition requests_of (c : string) (rs : list Request) : list Request :=
  filter (fun r => clientKey r = c) rs.

(** ** Sample collaborators and a sample deployment, for concrete runs *)

(** An evaluator that knows one sum and rejects everything else. *)
Definition sample_evaluate (_ : nat) (expression : string) : Outcome string :=
  if String.eqb expression "2 + 2" then Return "4"
  else Throw (mkError "SyntaxError" "Value expected (char 1)").

(** An evaluator whose result prints as 300 characters. *)
Definition verbose_evaluate (_ : nat) (_ : string) : Outcome string :=
  Return (string_of_list_ascii (repeat "7"%char 300)).

(** A backend that is unreachable. *)
Definition failing_backend (_ : nat) (_ : string) : Outcome (option string) :=
  Throw (mkError "Error" "fetch failed").

(** A backend that answers with 300 characters. *)
Definition long_text : string :=
  string_of_list_ascii (repeat "a"%char 300).

Definition verbose_backend (_ : nat) (_ : string) : Outcome (option string) :=
  Return (Some long_text).

(** A backend that answers briefly. *)
Definition brief_backend (_ : nat) (_ : string) : Outcome (option string) :=
  Return (Some "Cats sleep most of the day.").

(** The dispatcher and the serving loop for the suffix [example.com]. *)
Definition sample_dispatch
    (generateContent : nat -> string -> Outcome (option string))
    : Request -> World -> Answer * World :=
  dispatch sample_evaluate generateContent "example.com"
    "Rate limit exceeded. Try again later."
    "Service temporarily unavailable." "dispatcher".

Definition sample_serve : list Request -> World
    -> list (Request * Verdict * Answer) * World :=
  serve sample_evaluate brief_backend "example.com"
    "Rate limit exceeded. Try again later."
    "Service temporarily unavailable." "dispatcher".

(** One client asking for [help] 101 times within the same millisecond. *)
Definition burst : list Request :=
  replicate 101 (mkRequest "192.0.2.7" 5 "help").

(** The same client asking once at time 0, fifty times one millisecond
    before its window ends and fifty-one times as the window ends. *)
Definition straddling_burst : list Request :=
  (mkRequest "192.0.2.7" 0 "help"
     :: replicate 50 (mkRequest "192.0.2.7" 59999 "help")
     ++ replicate 51 (mkRequest "192.0.2.7" 60000 "help"))%list.

(** ** Further vocabulary, for the properties of the handlers *)

(** The string without its first [n] characters. *)
Fixpoint skip (n : nat) (s : string) : string :=
  match n, s with
  | O, _ => s
  | S n', EmptyString => EmptyString
  | S n', String _ s' => skip n' s'
  end.

(** The position of the leftmost match of a literal pattern, ignoring
    case. *)
Fixpoint first_match (p s : string) : option nat :=
  match JS.match_here p s with
  | Some _ => Some O
  | None =>
      match s with
      | EmptyString => None
      | String _ s' => option_map S (first_match p s')
      end
  end.

(** The string with every character [d] replaced by the character [c]. *)
Fixpoint replace_char (d c : ascii) (s : string) : string :=
  match s with
  | EmptyString => EmptyString
  | String x s' =>
      String (if Ascii.eqb x d then c else x) (replace_char d c s')
  end.

(** The characters of a string. *)
Definition chars (s : string) : list ascii := list_ascii_of_string s.

(** The handlers of the registry that answer locally, and the category
    under which each of the others calls the gateway. *)
Definition is_local (c : Command) : bool :=
  match c with
  | Calc | Unit | StatsCmd | Help => true
  | _ => false
  end.

Definition category_of (c : Command) : string :=
  match c with
  | Translate => "translation"
  | Convert => "conversion"
  | Onthisday => "history"
  | Define => "definition"
  | other => command_name other
  end.

(** The sum of the per-category counters. *)
Definition total_categories (s : Stats) : N :=
  map_fold (fun (_ : string) (n acc : N) => (n + acc)%N) 0%N (byCategory s).

(** A counter of [stats.byCategory], zero when the key is absent. *)
Definition category_count (s : Stats) (category : string) : N :=
  default 0%N (byCategory s !! category).

(** Invoking handlers of the registry one after the other, whatever each
    returns or throws. *)
Fixpoint run_handlers
    (evaluate : nat -> string -> Outcome string)
    (generateContent : nat -> string -> Outcome (option string))
    (calls : list (Command * string)) (w : World) : World :=
  match calls with
  | [] => w
  | (c, query) :: rest =>
      run_handlers evaluate generateContent rest
        (snd (handlers evaluate generateContent c query w))
  end.

(** The number of calls in a sequence that go to the gateway. *)
Definition gateway_calls (calls : list (Command * string)) : nat :=
  length (filter (fun call => is_local (fst call) = false) calls).

(** The prompt [handlers.translate] builds from its three parts. *)
Definition translate_prompt (text from to : string) : string :=
  "Translate " +:+ dquote +:+ text +:+ dquote +:+ " from " +:+ from
  +:+ " to " +:+ to
  +:+ ". Reply with ONLY the translation, no explanations.".

(** A backend that answers with nothing. *)
Definition silent_backend (_ : nat) (_ : string) : Outcome (option string) :=
  Return (Some EmptyString).

(** An evaluator that would answer any expression holding a dot, and
    otherwise behaves as the sample one. *)
Definition fussy_evaluate (n : nat) (expression : string) : Outcome string :=
  if existsb (Ascii.eqb ".") (chars expression) then Return "dotted"
  else sample_evaluate n expression.

(** * Properties *)

(** ** Strings *)

Example split_labels :
  JS.split "." "2.+.2" = ["2"; "+"; "2"].
Proof. reflexivity. Qed.

Example remove_first_ci_mixed_case :
  JS.remove_first_ci "calc." "CaLc.2.+.2" = "2.+.2".
Proof. reflexivity. Qed.

Example remove_first_ci_inside :
  JS.remove_first_ci "calc." "x.calc.2" = "x.2".
Proof. reflexivity. Qed.

Example number_to_string_samples :
  JS.number_to_string 0 = "0" /\ JS.number_to_string 105 = "105".
Proof. split; reflexivity. Qed.

Lemma length_append (s t : string) :
  String.length (s +:+ t) = (String.length s + String.length t)%nat.
Proof. induction s as [|c s IH]; simpl; [reflexivity | now rewrite IH]. Qed.

Lemma length_substring_to (n : nat) (s : string) :
  String.length (JS.substring_to n s) = Nat.min n (String.length s).
Proof.
  unfold JS.substring_to. revert s.
  induction n as [|n IH]; intros [|c s]; simpl; try reflexivity.
  now rewrite IH.
Qed.

(** A pattern matches, ignoring case, any string that folds to the same
    characters, and leaves what follows it. *)
Lemma match_here_app (p pre rest : string) :
  to_lower pre = to_lower p ->
  JS.match_here p (pre +:+ rest) = Some rest.
Proof.
  revert pre. induction p as [|a p IH]; intros [|b pre]; simpl; intros H;
    try reflexivity; try discriminate.
  unfold to_lower in H. simpl in H. injection H as Hc Hs.
  unfold JS.eqb_ci. rewrite Hc, Ascii.eqb_refl. apply IH. exact Hs.
Qed.

Lemma remove_first_ci_front (p pre rest : string) :
  to_lower pre = to_lower p ->
  JS.remove_first_ci p (pre +:+ rest) = rest.
Proof.
  intros H. destruct (pre +:+ rest) eqn:E; simpl;
    rewrite <- E, (match_here_app p pre rest H); reflexivity.
Qed.

Lemma truncate_length (a : Answer) :
  (String.length (answer (truncate a)) <= CONFIG.MAX_RESPONSE_LENGTH)%nat.
Proof.
  unfold truncate.
  destruct (CONFIG.MAX_RESPONSE_LENGTH <? String.length (answer a))%nat eqn:E.
  - cbn [answer]. rewrite length_append, length_substring_to.
    unfold CONFIG.MAX_RESPONSE_LENGTH. cbn [String.length]. lia.
  - apply Nat.ltb_ge in E. exact E.
Qed.

Lemma truncate_cached (a : Answer) : cached (truncate a) = cached a.
Proof. unfold truncate. now destruct (_ <? _)%nat. Qed.

Lemma truncate_idempotent (a : Answer) : truncate (truncate a) = truncate a.
Proof.
  unfold truncate at 1.
  pose proof (truncate_length a) as H. apply Nat.ltb_ge in H.
  now rewrite H.
Qed.

(** ** Which part of the state a computation can see and change *)

Create HintDb stores.

Lemma same_stores_refl w : same_stores w w.
Proof. split; reflexivity. Qed.

Lemma same_stores_trans w1 w2 w3 :
  same_stores w1 w2 -> same_stores w2 w3 -> same_stores w1 w3.
Proof. intros [? ?] [? ?]. split; congruence. Qed.

Lemma stats_only_ret {A} (a : A) : stats_only (ret a).
Proof. split; intros; simpl; auto using same_stores_refl. Qed.

Lemma stats_only_throw {A} (e : JsError) : stats_only (@throw A e).
Proof. split; intros; simpl; auto using same_stores_refl. Qed.

Lemma stats_only_bind {A B} (m : M A) (k : A -> M B) :
  stats_only m -> (forall a, stats_only (k a)) -> stats_only (bind m k).
Proof.
  intros [Hf Hn] Hk. split.
  - intros w. unfold bind. specialize (Hf w).
    destruct (m w) as [[a|e] w1]; simpl in *; [|exact Hf].
    destruct (Hk a) as [Hfk _].
    eapply same_stores_trans; [apply Hfk | exact Hf].
  - intros w1 w2 Hw. unfold bind. specialize (Hn w1 w2 Hw).
    destruct (m w1) as [[a1|e1] w1'], (m w2) as [[a2|e2] w2'];
      simpl in *; destruct Hn as [Ho Ha]; try discriminate.
    + injection Ho as ->. destruct (Hk a2) as [_ Hnk]. apply Hnk, Ha.
    + injection Ho as ->. split; [reflexivity | exact Ha].
Qed.

Lemma stats_only_try_catch {A} (body : M A) (handle : JsError -> M A) :
  stats_only body -> (forall e, stats_only (handle e)) ->
  stats_only (try_catch body handle).
Proof.
  intros [Hf Hn] Hk. split.
  - intros w. unfold try_catch. specialize (Hf w).
    destruct (body w) as [[a|e] w1]; simpl in *; [exact Hf|].
    destruct (Hk e) as [Hfk _].
    eapply same_stores_trans; [apply Hfk | exact Hf].
  - intros w1 w2 Hw. unfold try_catch. specialize (Hn w1 w2 Hw).
    destruct (body w1) as [[a1|e1] w1'], (body w2) as [[a2|e2] w2'];
      simpl in *; destruct Hn as [Ho Ha]; try discriminate.
    + injection Ho as ->. split; [reflexivity | exact Ha].
    + injection Ho as ->. destruct (Hk e2) as [_ Hnk]. apply Hnk, Ha.
Qed.

Lemma stats_only_get_stats : stats_only get_stats.
Proof.
  split.
  - intros w. apply same_stores_refl.
  - intros w1 w2 [Hs He]. unfold get_stats. simpl. rewrite Hs.
    repeat split; assumption.
Qed.

Lemma stats_only_put_stats (s : Stats) : stats_only (put_stats s).
Proof.
  split.
  - intros w. split; reflexivity.
  - intros w1 w2 [Hs He]. unfold put_stats, agree. simpl.
    repeat split; assumption.
Qed.

Lemma stats_only_if {A} (b : bool) (m1 m2 : M A) :
  stats_only m1 -> stats_only m2 -> stats_only (if b then m1 else m2).
Proof. now destruct b. Qed.

#[export] Hint Resolve stats_only_ret stats_only_throw stats_only_get_stats
  stats_only_put_stats : stores.
#[export] Hint Resolve stats_only_bind stats_only_try_catch stats_only_if : stores.

Section Frame.

Variable evaluate : nat -> string -> Outcome string.
Variable generateContent : nat -> string -> Outcome (option string).

Lemma stats_only_call_evaluate (expression : string) :
  stats_only (call_evaluate evaluate expression).
Proof.
  split.
  - intros w. split; reflexivity.
  - intros w1 w2 [Hs He]. unfold call_evaluate, agree. simpl.
    now rewrite Hs, He.
Qed.

Lemma stats_only_call_generateContent (prompt : string) :
  stats_only (call_generateContent generateContent prompt).
Proof.
  split.
  - intros w. split; reflexivity.
  - intros w1 w2 [Hs He]. unfold call_generateContent, agree. simpl.
    now rewrite Hs, He.
Qed.

Lemma stats_only_bump_category (category : string) :
  stats_only (bump_category category).
Proof. unfold bump_category. auto with stores. Qed.

Lemma stats_only_bump_errors : stats_only bump_errors.
Proof. unfold bump_errors. auto with stores. Qed.

Lemma stats_only_callAI (prompt : string) (category : option string) :
  stats_only (callAI generateContent prompt category).
Proof.
  unfold callAI, assign_const.
  apply stats_only_try_catch.
  - apply stats_only_bind; [apply stats_only_call_generateContent|].
    intros result. apply stats_only_bind; [auto with stores|].
    intros a. apply stats_only_bind; [apply stats_only_bump_category|].
    auto with stores.
  - intros e. apply stats_only_bind; [apply stats_only_bump_errors|].
    auto with stores.
Qed.

Lemma stats_only_handlers_ip (query : string) :
  stats_only (handlers_ip generateContent query).
Proof. apply stats_only_callAI. Qed.

Lemma stats_only_handlers (c : Command) (query : string) :
  stats_only (handlers evaluate generateContent c query).
Proof.
  destruct c; cbn [handlers];
    try apply stats_only_callAI.
  - unfold handlers_calc. apply stats_only_try_catch; [|auto with stores].
    apply stats_only_bind; [apply stats_only_call_evaluate | auto with stores].
  - unfold handlers_unit. apply stats_only_try_catch; [|auto with stores].
    apply stats_only_bind; [apply stats_only_call_evaluate | auto with stores].
  - unfold handlers_stats. auto with stores.
  - unfold handlers_help. auto with stores.
Qed.

End Frame.

(** ** The generative gateway, case by case *)

Section Gateway.

Variable generateContent : nat -> string -> Outcome (option string).

(** The backend call fails: the error is counted and thrown again. *)
Lemma callAI_backend_failure prompt category w e :
  generateContent (external w) prompt = Throw e ->
  callAI generateContent prompt category w
  = (Throw e, set_stats (count_error (stats w)) (tick w)).
Proof.
  intros H. unfold callAI, try_catch, bind, call_generateContent.
  rewrite H. reflexivity.
Qed.

(** The backend answers within the bound: the text is returned as it is
    and the category is counted. *)
Lemma callAI_within_bound prompt category w result :
  generateContent (external w) prompt = Return result ->
  (String.length (JS.or_else result "No response generated.")
   <= CONFIG.MAX_RESPONSE_LENGTH)%nat ->
  callAI generateContent prompt category w
  = (Return (mkAnswer (JS.or_else result "No response generated.") false "ai"),
     set_stats (count_category (default "general" category) (stats w)) (tick w)).
Proof.
  intros H Hlen. unfold callAI, try_catch, bind, call_generateContent.
  rewrite H. apply Nat.ltb_ge in Hlen. rewrite Hlen. reflexivity.
Qed.

(** The backend answers beyond the bound: the assignment to the constant
    [answer] throws inside the [try], the error is counted and thrown. *)
Lemma callAI_beyond_bound prompt category w result :
  generateContent (external w) prompt = Return result ->
  (CONFIG.MAX_RESPONSE_LENGTH
   < String.length (JS.or_else result "No response generated."))%nat ->
  callAI generateContent prompt category w
  = (Throw const_assignment_error,
     set_stats (count_error (stats w)) (tick w)).
Proof.
  intros H Hlen. unfold callAI, try_catch, bind, call_generateContent.
  rewrite H. apply Nat.ltb_lt in Hlen. rewrite Hlen. reflexivity.
Qed.

Lemma callAI_returns prompt category :
  returns (fun a => cached a = false /\ handler a = "ai"
                    /\ (String.length (answer a) <= CONFIG.MAX_RESPONSE_LENGTH)%nat)
    (callAI generateContent prompt category).
Proof.
  intros w a w' H.
  destruct (generateContent (external w) prompt) as [result|e] eqn:E.
  - destruct (Nat.le_gt_cases
                (String.length (JS.or_else result "No response generated."))
                CONFIG.MAX_RESPONSE_LENGTH) as [Hle|Hgt].
    + rewrite (callAI_within_bound _ _ _ _ E Hle) in H.
      injection H as <- _. auto.
    + rewrite (callAI_beyond_bound _ _ _ _ E Hgt) in H. discriminate.
  - rewrite (callAI_backend_failure _ _ _ _ E) in H. discriminate.
Qed.

End Gateway.

Section Registry.

Variable evaluate : nat -> string -> Outcome string.
Variable generateContent : nat -> string -> Outcome (option string).

Lemma handlers_calc_eq query w :
  handlers_calc evaluate query w
  = (Return match evaluate (external w) (words_after "calc" query) with
            | Return result =>
                mkAnswer (words_after "calc" query +:+ " = " +:+ result) false "calc"
            | Throw error =>
                mkAnswer ("Math error: " +:+ message error) false "calc"
            end, tick w).
Proof.
  unfold handlers_calc, try_catch, bind, call_evaluate.
  destruct (evaluate _ _); reflexivity.
Qed.

Lemma handlers_unit_eq query w :
  handlers_unit evaluate query w
  = (Return match evaluate (external w) (words_after "unit" query) with
            | Return result =>
                mkAnswer (words_after "unit" query +:+ " = " +:+ result) false "unit"
            | Throw error =>
                mkAnswer ("Conversion error: " +:+ message error) false "unit"
            end, tick w).
Proof.
  unfold handlers_unit, try_catch, bind, call_evaluate.
  destruct (evaluate _ _); reflexivity.
Qed.

Lemma handlers_return_uncached (c : Command) (query : string) :
  returns (fun a => cached a = false)
    (handlers evaluate generateContent c query).
Proof.
  intros w a w' H.
  destruct c; cbn [handlers] in H;
    try (eapply callAI_returns in H; tauto).
  - rewrite handlers_calc_eq in H. injection H as <- _.
    now destruct (evaluate _ _).
  - rewrite handlers_unit_eq in H. injection H as <- _.
    now destruct (evaluate _ _).
  - injection H as <- _. reflexivity.
  - injection H as <- _. reflexivity.
Qed.

Lemma lookup_handler_name (c : Command) :
  lookup_handler (command_name c) = Some c.
Proof. destruct c; reflexivity. Qed.

Lemma lookup_handler_sound (name : string) (c : Command) :
  lookup_handler name = Some c -> command_name c = name.
Proof.
  unfold lookup_handler. intros H. apply find_some in H as [_ H].
  now apply String.eqb_eq.
Qed.

End Registry.

(** ** The handlers *)

(** C6: when the evaluator fails, [handlers.calc] and [handlers.unit] catch
    the failure and return an answer whose text is ['Math error: '],
    respectively ['Conversion error: '], followed by the evaluator's message
    as it is; on every input both handlers return an answer. *)
Theorem calc_and_unit_catch_evaluator_failures
    (evaluate : nat -> string -> Outcome string) (query : string) (w : World) :
  (forall error,
     evaluate (external w) (words_after "calc" query) = Throw error ->
     handlers_calc evaluate query w
     = (Return (mkAnswer ("Math error: " +:+ message error) false "calc"),
        tick w))
  /\ (forall error,
        evaluate (external w) (words_after "unit" query) = Throw error ->
        handlers_unit evaluate query w
        = (Return (mkAnswer ("Conversion error: " +:+ message error) false "unit"),
           tick w))
  /\ (exists a, fst (handlers_calc evaluate query w) = Return a)
  /\ (exists a, fst (handlers_unit evaluate query w) = Return a).
Proof.
  repeat split.
  - intros error H. rewrite handlers_calc_eq, H. reflexivity.
  - intros error H. rewrite handlers_unit_eq, H. reflexivity.
  - rewrite handlers_calc_eq. eexists. reflexivity.
  - rewrite handlers_unit_eq. eexists. reflexivity.
Qed.

Lemma calc_and_unit_catch_evaluator_failures_witness :
  sample_evaluate (external initial_world) (words_after "calc" "calc.2.+")
  = Throw (mkError "SyntaxError" "Value expected (char 1)")
  /\ handlers_calc sample_evaluate "calc.2.+" initial_world
     = (Return (mkAnswer "Math error: Value expected (char 1)" false "calc"),
        tick initial_world).
Proof.
  split; [reflexivity|].
  apply (proj1 (calc_and_unit_catch_evaluator_failures
                  sample_evaluate "calc.2.+" initial_world)
           (mkError "SyntaxError" "Value expected (char 1)")).
  reflexivity.
Defined.

(** C9: [handlers.stats] returns the answer whose text is
    [Queries:<totalQueries> Cache:<cacheHits>/<totalQueries> Errors:<errors>],
    and leaves the state as it is; with 5 queries, 2 cache hits and 1 error
    the text is [Queries:5 Cache:2/5 Errors:1]. *)
Theorem stats_summary :
  (forall w,
     handlers_stats w
     = (Return (mkAnswer
                  ("Queries:" +:+ JS.number_to_string (totalQueries (stats w))
                   +:+ " Cache:" +:+ JS.number_to_string (cacheHits (stats w))
                   +:+ "/" +:+ JS.number_to_string (totalQueries (stats w))
                   +:+ " Errors:" +:+ JS.number_to_string (errors (stats w)))
                  false "stats"), w))
  /\ (forall misses categories c m n,
        handlers_stats (mkWorld (mkStats 5 2 misses 1 categories) c m n)
        = (Return (mkAnswer "Queries:5 Cache:2/5 Errors:1" false "stats"),
           mkWorld (mkStats 5 2 misses 1 categories) c m n)).
Proof. split; intros; reflexivity. Qed.

(** ** The gateway *)

(** C7: when the backend call inside [callAI] fails, the error is thrown on
    to the caller, [stats.errors] has grown by exactly one, the other
    counters and [stats.byCategory] are as before, and the cache holds what
    it held, so no entry has been created under any key; more generally,
    whenever [callAI] throws, [stats.byCategory] is as before. *)
Theorem callAI_backend_failure_counted
    (generateContent : nat -> string -> Outcome (option string))
    (prompt : string) (category : option string) (w : World) (e : JsError) :
  generateContent (external w) prompt = Throw e ->
  let r := callAI generateContent prompt category w in
  fst r = Throw e
  /\ errors (stats (snd r)) = (errors (stats w) + 1)%N
  /\ byCategory (stats (snd r)) = byCategory (stats w)
  /\ totalQueries (stats (snd r)) = totalQueries (stats w)
  /\ cacheHits (stats (snd r)) = cacheHits (stats w)
  /\ cacheMisses (stats (snd r)) = cacheMisses (stats w)
  /\ cache (snd r) = cache w
  /\ rateLimitMap (snd r) = rateLimitMap w
  /\ (forall w0 e0,
        fst (callAI generateContent prompt category w0) = Throw e0 ->
        byCategory (stats (snd (callAI generateContent prompt category w0)))
        = byCategory (stats w0)).
Proof.
  intros H r. subst r. rewrite (callAI_backend_failure _ _ _ _ _ H).
  repeat split.
  intros w0 e0 H0.
  destruct (generateContent (external w0) prompt) as [result|e1] eqn:E.
  - destruct (Nat.le_gt_cases
                (String.length (JS.or_else result "No response generated."))
                CONFIG.MAX_RESPONSE_LENGTH) as [Hle|Hgt].
    + rewrite (callAI_within_bound _ _ _ _ _ E Hle) in H0. discriminate.
    + rewrite (callAI_beyond_bound _ _ _ _ _ E Hgt). reflexivity.
  - rewrite (callAI_backend_failure _ _ _ _ _ E). reflexivity.
Qed.

Lemma callAI_backend_failure_counted_witness :
  failing_backend (external initial_world) "Define cat"
  = Throw (mkError "Error" "fetch failed")
  /\ fst (callAI failing_backend "Define cat" (Some "definition") initial_world)
     = Throw (mkError "Error" "fetch failed")
  /\ errors (stats (snd (callAI failing_backend "Define cat"
                           (Some "definition") initial_world))) = 1%N.
Proof.
  split; [reflexivity|].
  pose proof (callAI_backend_failure_counted failing_backend "Define cat"
                (Some "definition") initial_world
                (mkError "Error" "fetch failed") eq_refl) as H.
  split; [exact (proj1 H) | exact (proj1 (proj2 H))].
Defined.

(** C2, as the code behaves: a backend text of 300 characters makes
    [callAI] throw the error of the assignment to the constant [answer];
    [stats.errors] is counted and no answer is returned. *)
Theorem callAI_throws_on_300_characters :
  String.length long_text = 300%nat
  /\ callAI verbose_backend "Share one interesting fact about cats in one sentence."
       (Some "fact") initial_world
     = (Throw (mkError "TypeError" "Assignment to constant variable."),
        mkWorld (mkStats 0 0 0 1 ∅) ∅ ∅ 1).
Proof.
  split; [vm_compute; reflexivity|].
  rewrite (callAI_beyond_bound verbose_backend _ _ _ (Some long_text) eq_refl).
  - reflexivity.
  - vm_compute. lia.
Qed.

(** C10: invoking a handler of the registry, or [callAI] itself, hands the
    cache and the rate-limit map back as they were; the outcome and the
    statistics it leaves do not depend on what the two stores hold; and
    every answer returned has [cached = false]. *)
Theorem handlers_leave_the_stores_alone
    (evaluate : nat -> string -> Outcome string)
    (generateContent : nat -> string -> Outcome (option string)) :
  (forall (c : Command) (query : string) (w : World),
     let r := handlers evaluate generateContent c query w in
     cache (snd r) = cache w
     /\ rateLimitMap (snd r) = rateLimitMap w
     /\ (forall c' m',
           handlers evaluate generateContent c query
             (mkWorld (stats w) c' m' (external w))
           = (fst r, mkWorld (stats (snd r)) c' m' (external (snd r))))
     /\ (forall a, fst r = Return a -> cached a = false))
  /\ (forall (prompt : string) (category : option string) (w : World),
        let r := callAI generateContent prompt category w in
        cache (snd r) = cache w
        /\ rateLimitMap (snd r) = rateLimitMap w
        /\ (forall c' m',
              callAI generateContent prompt category
                (mkWorld (stats w) c' m' (external w))
              = (fst r, mkWorld (stats (snd r)) c' m' (external (snd r))))
        /\ (forall a, fst r = Return a -> cached a = false)).
Proof.
  assert (Hgen : forall (m : M Answer), stats_only m ->
            returns (fun a => cached a = false) m ->
            forall w, let r := m w in
              cache (snd r) = cache w
              /\ rateLimitMap (snd r) = rateLimitMap w
              /\ (forall c' m',
                    m (mkWorld (stats w) c' m' (external w))
                    = (fst r, mkWorld (stats (snd r)) c' m' (external (snd r))))
              /\ (forall a, fst r = Return a -> cached a = false)).
  { intros m [Hf Hn] Hr w r. subst r.
    destruct (Hf w) as [Hc Hm]. repeat split; try assumption.
    - intros c' m'.
      set (w2 := mkWorld (stats w) c' m' (external w)).
      destruct (Hn w2 w (conj eq_refl eq_refl)) as [Ho [Hs He]].
      destruct (Hf w2) as [Hc2 Hm2].
      destruct (m w2) as [o2 [s2 c2 m2 n2]]. simpl in *. congruence.
    - intros a Ha. destruct (m w) as [o w'] eqn:E. simpl in Ha. subst o.
      exact (Hr _ _ _ E). }
  split.
  - intros c query. apply Hgen.
    + apply stats_only_handlers.
    + apply handlers_return_uncached.
  - intros prompt category. apply Hgen.
    + apply stats_only_callAI.
    + intros w a w' H. eapply callAI_returns in H. tauto.
Qed.

Lemma handlers_leave_the_stores_alone_witness :
  fst (handlers sample_evaluate brief_backend Fact "fact.cats" initial_world)
  = Return (mkAnswer "Cats sleep most of the day." false "ai")
  /\ cached (mkAnswer "Cats sleep most of the day." false "ai") = false.
Proof.
  split; [reflexivity|].
  apply (proj2 (proj2 (proj2
           (proj1 (handlers_leave_the_stores_alone sample_evaluate brief_backend)
              Fact "fact.cats" initial_world)))).
  reflexivity.
Defined.

(** ** Parsing inside the handlers *)

Lemma append_cons (c : ascii) (s t : string) :
  String c s +:+ t = String c (s +:+ t).
Proof. reflexivity. Qed.

Lemma append_assoc (s t u : string) : (s +:+ t) +:+ u = s +:+ (t +:+ u).
Proof.
  induction s as [|c s IH]; [reflexivity|].
  rewrite !append_cons. f_equal. exact IH.
Qed.

Lemma to_lower_app (s t : string) : to_lower (s +:+ t) = to_lower s +:+ to_lower t.
Proof.
  induction s as [|c s IH]; [reflexivity|].
  rewrite append_cons. unfold to_lower in *. cbn [list_ascii_of_string map string_of_list_ascii].
  rewrite IH. reflexivity.
Qed.

(** C8, as the code behaves: a handler deletes its own command prefix,
    whatever its case, from the front of a name that begins with it, and
    splits everything that follows on dots, without stripping any suffix:
    every label after the prefix is an argument, and the expression of
    [calc] and its like is those labels joined by spaces. *)
Theorem handler_parsing_keeps_every_label (cmd pre rest : string) :
  to_lower pre = to_lower cmd ->
  labels_after cmd (pre +:+ "." +:+ rest) = JS.split "." rest
  /\ words_after cmd (pre +:+ "." +:+ rest) = JS.join " " (JS.split "." rest).
Proof.
  intros H.
  assert (E : labels_after cmd (pre +:+ "." +:+ rest) = JS.split "." rest).
  { unfold labels_after. rewrite <- append_assoc.
    rewrite remove_first_ci_front; [reflexivity|].
    rewrite !to_lower_app. now rewrite H. }
  split; [exact E|]. unfold words_after. now rewrite E.
Qed.

Lemma handler_parsing_keeps_every_label_witness :
  to_lower "CALC" = to_lower "calc"
  /\ labels_after "calc" "CALC.2.+.2.example.com"
     = ["2"; "+"; "2"; "example"; "com"].
Proof.
  split; [reflexivity|].
  exact (proj1 (handler_parsing_keeps_every_label "calc" "CALC"
                  "2.+.2.example.com" eq_refl)).
Defined.

(** C8, as stated, fails: for the name [calc.2.+.2.example.com] under the
    suffix [example.com] the parser of the design yields the arguments
    [2], [+], [2], while the handler's own parsing yields five labels and
    the expression [2 + 2 example com]. *)
Lemma handler_parsing_keeps_the_suffix :
  command (parse "example.com" "calc.2.+.2.example.com") = "calc"
  /\ args (parse "example.com" "calc.2.+.2.example.com") = ["2"; "+"; "2"]
  /\ labels_after "calc" "calc.2.+.2.example.com"
     = ["2"; "+"; "2"; "example"; "com"]
  /\ words_after "calc" "calc.2.+.2.example.com" = "2 + 2 example com"
  /\ labels_after "calc" "calc.2.+.2.example.com"
     <> args (parse "example.com" "calc.2.+.2.example.com").
Proof.
  repeat split; try reflexivity. vm_compute. discriminate.
Qed.

(** ** The pipeline *)

Lemma rate_check_opens client t m :
  window_opens m client t ->
  rate_check client t m = (allow, <[client := mkRateLimitRecord t 1]> m).
Proof.
  unfold window_opens, rate_check. destruct (m !! client) as [r|]; [|reflexivity].
  intros H. apply Z.leb_le in H. now rewrite H.
Qed.

Lemma rate_check_within client t m r :
  m !! client = Some r ->
  (t - windowStart r < CONFIG.RATE_LIMIT_WINDOW)%Z ->
  rate_check client t m
  = (verdict_at (count r + 1),
     <[client := mkRateLimitRecord (windowStart r) (count r + 1)]> m).
Proof.
  intros H Ht. unfold rate_check. rewrite H.
  apply Z.leb_gt in Ht. now rewrite Ht.
Qed.

Lemma rate_check_elapsed client t m r :
  m !! client = Some r ->
  (CONFIG.RATE_LIMIT_WINDOW <= t - windowStart r)%Z ->
  rate_check client t m = (allow, <[client := mkRateLimitRecord t 1]> m).
Proof.
  intros H Ht. unfold rate_check. rewrite H.
  apply Z.leb_le in Ht. now rewrite Ht.
Qed.

Lemma rate_check_other client t (m : gmap string RateLimitRecord) c :
  c <> client -> snd (rate_check client t m) !! c = m !! c.
Proof.
  intros H. unfold rate_check.
  destruct (m !! client) as [r|]; [destruct (_ <=? _)%Z|]; simpl;
    now rewrite lookup_insert_ne.
Qed.

Lemma verdicts_until_rejected (k : N) (n : nat) :
  (k + N.of_nat n = CONFIG.RATE_LIMIT_MAX)%N ->
  verdicts k (S n) = (replicate n allow ++ [reject])%list.
Proof.
  revert k. induction n as [|n IH]; intros k H.
  - simpl. unfold verdict_at.
    replace (k + 1 <=? CONFIG.RATE_LIMIT_MAX)%N with false; [reflexivity|].
    symmetry. apply N.leb_gt. lia.
  - change (verdicts k (S (S n)))
      with (verdict_at (k + 1) :: verdicts (k + 1) (S n)).
    rewrite IH by lia. unfold verdict_at.
    replace (k + 1 <=? CONFIG.RATE_LIMIT_MAX)%N with true; [reflexivity|].
    symmetry. apply N.leb_le. lia.
Qed.

Section PipelineFacts.

Variable evaluate : nat -> string -> Outcome string.
Variable generateContent : nat -> string -> Outcome (option string).
Variable suffix rateLimitText unavailableText fallbackName : string.

Local Abbreviation invoke' := (invoke evaluate generateContent).
Local Abbreviation process' :=
  (process evaluate generateContent suffix unavailableText fallbackName).
Local Abbreviation dispatch' :=
  (dispatch evaluate generateContent suffix rateLimitText unavailableText
     fallbackName).
Local Abbreviation serve' :=
  (serve evaluate generateContent suffix rateLimitText unavailableText
     fallbackName).

Lemma stats_only_invoke (q : Query) : stats_only (invoke' q).
Proof.
  unfold invoke. destruct (lookup_handler (command q)).
  - apply stats_only_handlers.
  - unfold handlers_help. auto with stores.
Qed.

Lemma invoke_returns_uncached (q : Query) :
  returns (fun a => cached a = false) (invoke' q).
Proof.
  unfold invoke. destruct (lookup_handler (command q)).
  - apply handlers_return_uncached.
  - intros w a w' H. injection H as <- _. reflexivity.
Qed.

Lemma admission_eq (r : Request) (w : World) :
  admission r w
  = (fst (rate_check (clientKey r) (now r) (rateLimitMap w)),
     mkWorld (count_query (stats w)) (cache w)
       (snd (rate_check (clientKey r) (now r) (rateLimitMap w)))
       (external w)).
Proof.
  unfold admission. simpl.
  now destruct (rate_check (clientKey r) (now r) (rateLimitMap w)).
Qed.

Lemma process_rateLimitMap (r : Request) (w : World) :
  rateLimitMap (snd (process' r w)) = rateLimitMap w.
Proof.
  unfold process.
  destruct (cache_get _ _ _); [reflexivity|].
  destruct (stats_only_invoke (parse suffix (rawName r))) as [Hf _].
  specialize (Hf (set_stats (count_miss (stats w)) w)).
  destruct (invoke' _ _) as [[a|e] w2]; destruct Hf as [_ Hm]; exact Hm.
Qed.

Lemma dispatch_rateLimitMap (r : Request) (w : World) :
  rateLimitMap (snd (dispatch' r w))
  = snd (rate_check (clientKey r) (now r) (rateLimitMap w)).
Proof.
  unfold dispatch. rewrite admission_eq.
  destruct (fst (rate_check _ _ _)).
  - match goal with |- context [process' r ?w1] =>
      pose proof (process_rateLimitMap r w1) as H;
      destruct (process' r w1) as [a w2] end.
    exact H.
  - reflexivity.
Qed.

(** A rejected query is answered by the fixed text without parsing, cache
    lookup, handler or collaborator call. *)
Lemma dispatch_rejected (r : Request) (w : World) :
  fst (admission r w) = reject ->
  dispatch' r w
  = (truncate (rateLimitAnswer rateLimitText fallbackName),
     mkWorld (count_query (stats w)) (cache w)
       (snd (rate_check (clientKey r) (now r) (rateLimitMap w)))
       (external w)).
Proof.
  intros H. unfold dispatch. rewrite admission_eq in *. simpl in H.
  now rewrite H.
Qed.

Lemma dispatch_allowed (r : Request) (w : World) :
  fst (admission r w) = allow ->
  dispatch' r w
  = (truncate (fst (process' r (snd (admission r w)))),
     snd (process' r (snd (admission r w)))).
Proof.
  intros H. unfold dispatch. destruct (admission r w) as [d w1].
  simpl in *. subst d. now destruct (process' r w1).
Qed.

Lemma serve_cons (r : Request) (rs : list Request) (w : World) :
  serve' (r :: rs) w
  = ((r, fst (admission r w), fst (dispatch' r w))
       :: fst (serve' rs (snd (dispatch' r w))),
     snd (serve' rs (snd (dispatch' r w)))).
Proof.
  simpl. destruct (dispatch' r w) as [a w1]. simpl.
  now destruct (serve' rs w1).
Qed.

End PipelineFacts.

Section Serving.

Variable evaluate : nat -> string -> Outcome string.
Variable generateContent : nat -> string -> Outcome (option string).
Variable suffix rateLimitText unavailableText fallbackName : string.

Local Abbreviation dispatch' :=
  (dispatch evaluate generateContent suffix rateLimitText unavailableText
     fallbackName).
Local Abbreviation serve' :=
  (serve evaluate generateContent suffix rateLimitText unavailableText
     fallbackName).

Lemma requests_of_cons (c : string) (r : Request) (rs : list Request) :
  requests_of c (r :: rs)
  = if decide (clientKey r = c) then r :: requests_of c rs else requests_of c rs.
Proof. unfold requests_of. now rewrite filter_cons. Qed.

Lemma verdicts_of_cons (c : string) (r : Request) (d : Verdict) (a : Answer)
    (log : list (Request * Verdict * Answer)) :
  verdicts_of c ((r, d, a) :: log)
  = if decide (clientKey r = c) then d :: verdicts_of c log else verdicts_of c log.
Proof.
  unfold verdicts_of. rewrite filter_cons. cbn [fst].
  now destruct (decide (clientKey r = c)).
Qed.

(** While a client stays within its window, its record keeps the window
    start and counts its requests, whatever other clients do meanwhile. *)
Lemma serve_within_window (rs : list Request) :
  forall (w : World) (c : string) (t0 : Z) (k : N),
    rateLimitMap w !! c = Some (mkRateLimitRecord t0 k) ->
    (forall r, r ∈ requests_of c rs -> (now r - t0 < CONFIG.RATE_LIMIT_WINDOW)%Z) ->
    verdicts_of c (fst (serve' rs w)) = verdicts k (length (requests_of c rs))
    /\ rateLimitMap (snd (serve' rs w)) !! c
       = Some (mkRateLimitRecord t0 (k + N.of_nat (length (requests_of c rs)))).
Proof.
  induction rs as [|r rs IH]; intros w c t0 k Hrec Hwin.
  - simpl. rewrite N.add_0_r. split; [reflexivity | exact Hrec].
  - rewrite serve_cons. cbn [fst snd].
    rewrite verdicts_of_cons. rewrite requests_of_cons in *.
    destruct (decide (clientKey r = c)) as [Hc|Hc].
    + assert (Hr : (now r - t0 < CONFIG.RATE_LIMIT_WINDOW)%Z)
        by (apply Hwin; left).
      pose proof (rate_check_within (clientKey r) (now r) (rateLimitMap w)
                    (mkRateLimitRecord t0 k)) as Hchk.
      rewrite Hc in Hchk. specialize (Hchk Hrec Hr). cbn [windowStart count] in Hchk.
      destruct (IH (snd (dispatch' r w)) c t0 (k + 1)%N) as [IH1 IH2].
      * rewrite dispatch_rateLimitMap, Hc, Hchk. cbn [snd].
        apply lookup_insert_eq.
      * intros r' Hr'. apply Hwin. now right.
      * cbn [length verdicts]. rewrite IH1, IH2.
        rewrite admission_eq. cbn [fst]. rewrite Hc, Hchk. cbn [fst].
        split; [reflexivity|]. do 2 f_equal. lia.
    + apply IH; [|exact Hwin].
      rewrite dispatch_rateLimitMap, rate_check_other by (intros ->; now apply Hc).
      exact Hrec.
Qed.

(** From the request of a client that opens its window on. *)
Lemma serve_first_request (rs : list Request) :
  forall (w : World) (c : string) (first : Request) (rest : list Request),
    requests_of c rs = first :: rest ->
    window_opens (rateLimitMap w) c (now first) ->
    (forall r, r ∈ rest -> (now r - now first < CONFIG.RATE_LIMIT_WINDOW)%Z) ->
    verdicts_of c (fst (serve' rs w)) = allow :: verdicts 1 (length rest)
    /\ rateLimitMap (snd (serve' rs w)) !! c
       = Some (mkRateLimitRecord (now first) (1 + N.of_nat (length rest))).
Proof.
  induction rs as [|r rs IH]; intros w c first rest Hreq Hopen Hwin.
  - discriminate.
  - rewrite serve_cons. cbn [fst snd].
    rewrite verdicts_of_cons. rewrite requests_of_cons in Hreq.
    destruct (decide (clientKey r = c)) as [Hc|Hc].
    + injection Hreq as -> Hrest.
      pose proof (rate_check_opens (clientKey first) (now first) (rateLimitMap w)) as Hchk.
      rewrite Hc in Hchk. specialize (Hchk Hopen).
      destruct (serve_within_window rs (snd (dispatch' first w)) c (now first) 1)
        as [H1 H2].
      * rewrite dispatch_rateLimitMap, Hc, Hchk. cbn [snd].
        apply lookup_insert_eq.
      * rewrite Hrest. exact Hwin.
      * rewrite Hrest in H1, H2. rewrite H1, H2.
        rewrite admission_eq. cbn [fst]. rewrite Hc, Hchk. cbn [fst].
        split; reflexivity.
    + apply IH; [exact Hreq| |exact Hwin].
      unfold window_opens.
      rewrite dispatch_rateLimitMap, rate_check_other by (intros ->; now apply Hc).
      exact Hopen.
Qed.

(** Every rejection in a log carries the fixed answer. *)
Lemma serve_rejections (rs : list Request) :
  forall (w : World) r a,
    (r, reject, a) ∈ fst (serve' rs w) ->
    a = truncate (rateLimitAnswer rateLimitText fallbackName).
Proof.
  induction rs as [|r0 rs IH]; intros w r a H.
  - simpl in H. inversion H.
  - rewrite serve_cons in H. cbn [fst] in H.
    apply elem_of_cons in H as [H|H].
    + injection H as -> Hd ->.
      now rewrite (dispatch_rejected _ _ _ _ _ _ _ _ (eq_sym Hd)).
    + eapply IH, H.
Qed.

End Serving.

(** ** The dispatcher *)

(** C1: whatever the query, the client, the time and the state, and
    whatever the evaluator and the backend produce, the answer the
    dispatcher hands back has a text of at most 255 characters; and every
    answer that [callAI] itself returns is within that bound already. *)
Theorem answer_within_txt_bound
    (evaluate : nat -> string -> Outcome string)
    (generateContent : nat -> string -> Outcome (option string))
    (suffix rateLimitText unavailableText fallbackName : string) :
  (forall (r : Request) (w : World),
     (String.length
        (answer (fst (dispatch evaluate generateContent suffix rateLimitText
                        unavailableText fallbackName r w))) <= 255)%nat)
  /\ (forall (prompt : string) (category : option string) (w w' : World)
             (a : Answer),
        callAI generateContent prompt category w = (Return a, w') ->
        (String.length (answer a) <= 255)%nat).
Proof.
  split.
  - intros r w. unfold dispatch. destruct (admission r w) as [[|] w1].
    + destruct (process _ _ _ _ _ r w1) as [a w2]. apply truncate_length.
    + apply truncate_length.
  - intros prompt category w w' a H.
    apply callAI_returns in H. apply H.
Qed.

Lemma answer_within_txt_bound_witness :
  callAI brief_backend "Define cat" (Some "definition") initial_world
  = (Return (mkAnswer "Cats sleep most of the day." false "ai"),
     set_stats (count_category "definition" initial_stats) (tick initial_world))
  /\ (String.length "Cats sleep most of the day." <= 255)%nat.
Proof.
  split; [reflexivity|].
  exact (proj2 (answer_within_txt_bound sample_evaluate brief_backend
                  "example.com" "Rate limit exceeded. Try again later."
                  "Service temporarily unavailable." "dispatcher")
           "Define cat" (Some "definition") initial_world _ _ eq_refl).
Defined.

(** The bound is the dispatcher's: [handlers.calc] itself returns whatever
    length the expression and the evaluator's result add up to. *)
Example calc_text_beyond_bound :
  String.length
    (answer (fst (dispatch verbose_evaluate brief_backend "example.com"
                    "Rate limit exceeded. Try again later."
                    "Service temporarily unavailable." "dispatcher"
                    (mkRequest "192.0.2.7" 0 "calc.7") initial_world)))
  = 255%nat
  /\ exists a,
       fst (handlers_calc verbose_evaluate "calc.7" initial_world) = Return a
       /\ String.length (answer a) = 304%nat.
Proof.
  split; [vm_compute; reflexivity|].
  eexists. split; [reflexivity | vm_compute; reflexivity].
Qed.

(** A query whose handler throws leaves the cache as it was. *)
Lemma failed_query_not_cached
    (evaluate : nat -> string -> Outcome string)
    (generateContent : nat -> string -> Outcome (option string))
    (suffix unavailableText fallbackName : string)
    (r : Request) (w : World) (e : JsError) :
  cache_get (normalized (parse suffix (rawName r))) (now r) (cache w) = None ->
  fst (invoke evaluate generateContent (parse suffix (rawName r))
         (set_stats (count_miss (stats w)) w)) = Throw e ->
  process evaluate generateContent suffix unavailableText fallbackName r w
  = (unavailableAnswer unavailableText fallbackName,
     set_stats
       (count_error
          (stats (snd (invoke evaluate generateContent (parse suffix (rawName r))
                         (set_stats (count_miss (stats w)) w)))))
       (snd (invoke evaluate generateContent (parse suffix (rawName r))
               (set_stats (count_miss (stats w)) w))))
  /\ cache (snd (process evaluate generateContent suffix unavailableText
                   fallbackName r w)) = cache w.
Proof.
  intros Hmiss Hthrow. unfold process. rewrite Hmiss.
  destruct (stats_only_invoke evaluate generateContent
              (parse suffix (rawName r))) as [Hf _].
  specialize (Hf (set_stats (count_miss (stats w)) w)).
  destruct (invoke _ _ _ _) as [o w2]. cbn [fst snd] in *. subst o.
  split; [reflexivity|]. destruct Hf as [Hc _]. exact Hc.
Qed.




Lemma cache_get_fresh (key : string) (a : Answer) (t t' : Z)
    (c : gmap string CacheEntry) :
  (t' < t + CONFIG.CACHE_TTL * 1000)%Z ->
  cache_get key t' (cache_set key a t c) = Some a.
Proof.
  intros H. unfold cache_get, cache_set. rewrite lookup_insert_eq.
  cbn [insertedAt ttl value]. apply Z.ltb_lt in H. now rewrite H.
Qed.

Lemma answer_truncate_mark_cached (a : Answer) :
  answer (truncate (mark_cached a)) = answer (truncate a)
  /\ handler (truncate (mark_cached a)) = handler (truncate a).
Proof.
  unfold truncate, mark_cached. cbn [answer handler cached].
  destruct (_ <? _)%nat; split; reflexivity.
Qed.

(** C4, as the pipeline behaves: when the first of two queries with the
    same command and arguments is admitted, misses the cache and has its
    handler return an answer, and the second is admitted before the time to
    live of the stored entry has elapsed, then the first answer has
    [cached = false], the second [cached = true], both carry the same text
    and handler name, and the second leaves the cache, with the entry stored
    by the first, as it was. *)
Theorem repeated_query_served_from_cache
    (evaluate : nat -> string -> Outcome string)
    (generateContent : nat -> string -> Outcome (option string))
    (suffix rateLimitText unavailableText fallbackName : string)
    (r1 r2 : Request) (w : World) (a : Answer) :
  let dispatch' :=
    dispatch evaluate generateContent suffix rateLimitText unavailableText
      fallbackName in
  let q1 := parse suffix (rawName r1) in
  let q2 := parse suffix (rawName r2) in
  let w1 := snd (admission r1 w) in
  let first := dispatch' r1 w in
  let second := dispatch' r2 (snd first) in
  command q1 = command q2 ->
  args q1 = args q2 ->
  (now r2 < now r1 + CONFIG.CACHE_TTL * 1000)%Z ->
  fst (admission r1 w) = allow ->
  cache_get (normalized q1) (now r1) (cache w) = None ->
  fst (invoke evaluate generateContent q1 (set_stats (count_miss (stats w1)) w1))
  = Return a ->
  fst (admission r2 (snd first)) = allow ->
  cached (fst first) = false
  /\ cached (fst second) = true
  /\ answer (fst first) = answer (fst second)
  /\ handler (fst first) = handler (fst second)
  /\ cache (snd first) !! normalized q1
     = Some (mkCacheEntry a (now r1) (CONFIG.CACHE_TTL * 1000))
  /\ cache (snd second) = cache (snd first).
Proof.
  intros dispatch' q1 q2 w1 first second Hcmd Hargs Httl Hadm1 Hmiss Hinv Hadm2.
  assert (Hkey : normalized q2 = normalized q1)
    by (unfold normalized; now rewrite Hcmd, Hargs).
  assert (Hfirst : first
          = (truncate a,
             set_cache (cache_set (normalized q1) a (now r1) (cache w))
               (snd (invoke evaluate generateContent q1
                       (set_stats (count_miss (stats w1)) w1))))).
  { subst first dispatch'. rewrite (dispatch_allowed _ _ _ _ _ _ _ _ Hadm1).
    fold w1. unfold process. fold q1.
    replace (cache w1) with (cache w) by (subst w1; now rewrite admission_eq).
    rewrite Hmiss.
    destruct (stats_only_invoke evaluate generateContent q1) as [Hf _].
    specialize (Hf (set_stats (count_miss (stats w1)) w1)).
    destruct (invoke evaluate generateContent q1 _) as [o w2].
    cbn [fst snd] in *. subst o. destruct Hf as [Hc _].
    cbn [fst snd]. do 3 f_equal. rewrite Hc. subst w1.
    now rewrite admission_eq. }
  assert (Hsecond : second
          = (truncate (mark_cached a),
             set_stats (count_hit (stats (snd (admission r2 (snd first)))))
               (snd (admission r2 (snd first))))).
  { subst second dispatch'. rewrite (dispatch_allowed _ _ _ _ _ _ _ _ Hadm2).
    unfold process. fold q2. rewrite Hkey.
    replace (cache (snd (admission r2 (snd first))))
      with (cache (snd first)) by now rewrite admission_eq.
    assert (Hhit : cache_get (normalized q1) (now r2) (cache (snd first))
                   = Some a).
    { rewrite Hfirst. cbn [snd set_cache cache].
      apply cache_get_fresh, Httl. }
    rewrite !Hhit. reflexivity. }
  assert (Huncached : cached a = false).
  { destruct (invoke evaluate generateContent q1
                (set_stats (count_miss (stats w1)) w1)) as [o w2] eqn:E.
    cbn [fst] in Hinv. subst o.
    exact (invoke_returns_uncached _ _ _ _ _ _ E). }
  rewrite Hsecond. cbn [fst snd]. rewrite admission_eq. cbn [snd set_stats cache].
  rewrite Hfirst. cbn [fst snd set_cache cache].
  rewrite !truncate_cached.
  destruct (answer_truncate_mark_cached a) as [Ha Hh].
  repeat split; auto.
  unfold cache_set. apply lookup_insert_eq.
Qed.

Lemma repeated_query_served_from_cache_witness :
  fst (admission (mkRequest "192.0.2.7" 0 "calc.2.+.2.example.com") initial_world)
  = allow
  /\ cached (fst (sample_dispatch brief_backend
                    (mkRequest "192.0.2.7" 0 "calc.2.+.2.example.com")
                    initial_world)) = false
  /\ cached (fst (sample_dispatch brief_backend
                    (mkRequest "192.0.2.7" 1000 "CALC.2.+.2.example.com")
                    (snd (sample_dispatch brief_backend
                            (mkRequest "192.0.2.7" 0 "calc.2.+.2.example.com")
                            initial_world)))) = true
  /\ answer (fst (sample_dispatch brief_backend
                    (mkRequest "192.0.2.7" 1000 "CALC.2.+.2.example.com")
                    (snd (sample_dispatch brief_backend
                            (mkRequest "192.0.2.7" 0 "calc.2.+.2.example.com")
                            initial_world)))) = "2 + 2 = 4".
Proof.
  split; [reflexivity|].
  pose proof (repeated_query_served_from_cache sample_evaluate brief_backend
                "example.com" "Rate limit exceeded. Try again later."
                "Service temporarily unavailable." "dispatcher"
                (mkRequest "192.0.2.7" 0 "calc.2.+.2.example.com")
                (mkRequest "192.0.2.7" 1000 "CALC.2.+.2.example.com")
                initial_world (mkAnswer "2 + 2 = 4" false "calc")
                eq_refl eq_refl eq_refl eq_refl eq_refl eq_refl eq_refl) as H.
  cbv zeta in H. destruct H as (H1 & H2 & _).
  unfold sample_dispatch.
  split; [exact H1|]. split; [exact H2|].
  vm_compute. reflexivity.
Defined.

(** C4, as stated, fails: with the backend unreachable, the handler of
    [fact.cats] throws, nothing is stored, and the same query issued again
    one second later by the same admitted client is a miss again, answered
    with [cached = false]. *)
Lemma repeated_query_missed_after_failure :
  fst (admission (mkRequest "192.0.2.7" 0 "fact.cats") initial_world) = allow
  /\ fst (admission (mkRequest "192.0.2.7" 1000 "fact.cats")
            (snd (sample_dispatch failing_backend
                    (mkRequest "192.0.2.7" 0 "fact.cats") initial_world)))
     = allow
  /\ cached (fst (sample_dispatch failing_backend
                    (mkRequest "192.0.2.7" 0 "fact.cats") initial_world))
     = false
  /\ cached (fst (sample_dispatch failing_backend
                    (mkRequest "192.0.2.7" 1000 "fact.cats")
                    (snd (sample_dispatch failing_backend
                            (mkRequest "192.0.2.7" 0 "fact.cats")
                            initial_world)))) <> true
  /\ cache (snd (sample_dispatch failing_backend
                   (mkRequest "192.0.2.7" 0 "fact.cats") initial_world))
     !! "fact.cats" = None.
Proof.
  repeat split; try (vm_compute; reflexivity).
  vm_compute. discriminate.
Qed.

(** * Further properties of the handlers and the gateway *)

(** ** The parsing step, character by character *)

Lemma skip_nil (n : nat) : skip n EmptyString = EmptyString.
Proof. now destruct n. Qed.

Lemma match_here_skip (p s rest : string) :
  JS.match_here p s = Some rest -> rest = skip (String.length p) s.
Proof.
  revert s. induction p as [|a p IH]; intros [|b s] H; simpl in *;
    try discriminate.
  - now injection H as <-.
  - now injection H as <-.
  - destruct (JS.eqb_ci a b); [|discriminate]. now apply IH.
Qed.

(** [first_match] is the leftmost position at which the pattern matches,
    and [replace] deletes the match found there and nothing else. *)
Lemma remove_first_ci_leftmost (p s : string) :
  match first_match p s with
  | Some i =>
      JS.match_here p (skip i s) = Some (skip (i + String.length p) s)
      /\ (forall j, (j < i)%nat -> JS.match_here p (skip j s) = None)
      /\ JS.remove_first_ci p s
         = JS.substring_to i s +:+ skip (i + String.length p) s
  | None =>
      (forall j, JS.match_here p (skip j s) = None)
      /\ JS.remove_first_ci p s = s
  end.
Proof.
  induction s as [|c s IH].
  - cbn [first_match JS.remove_first_ci].
    destruct (JS.match_here p EmptyString) as [rest|] eqn:E.
    + pose proof (match_here_skip _ _ _ E) as Hr. rewrite skip_nil in Hr.
      subst rest. cbn [skip Nat.add]. rewrite skip_nil.
      split; [exact E|]. split; [intros j Hj; lia | reflexivity].
    + split; [|reflexivity]. intros j. now rewrite skip_nil.
  - cbn [first_match JS.remove_first_ci].
    destruct (JS.match_here p (String c s)) as [rest|] eqn:E.
    + pose proof (match_here_skip _ _ _ E) as Hr. subst rest.
      cbn [skip Nat.add]. split; [exact E|].
      split; [intros j Hj; lia | reflexivity].
    + destruct (first_match p s) as [i|]; cbn [option_map].
      * destruct IH as (Hm & Hlt & Hr). cbn [skip Nat.add].
        split; [exact Hm|]. split.
        -- intros [|j] Hj; [exact E|]. cbn [skip]. apply Hlt. lia.
        -- rewrite Hr. reflexivity.
      * destruct IH as (Hno & Hr). split.
        -- intros [|j]; [exact E|]. cbn [skip]. apply Hno.
        -- now rewrite Hr.
Qed.

(** X1: a handler deletes its prefix [<command>.] at the leftmost place
    where the name holds it, in whatever case and also when that place is
    not the front, and splits what is left on dots; a name that does not
    hold the prefix is split whole, command label included. *)
Theorem handler_prefix_deleted_at_leftmost_match (cmd query : string) :
  match first_match (cmd +:+ ".") query with
  | Some i =>
      JS.match_here (cmd +:+ ".") (skip i query)
      = Some (skip (i + String.length (cmd +:+ ".")) query)
      /\ (forall j, (j < i)%nat ->
            JS.match_here (cmd +:+ ".") (skip j query) = None)
      /\ labels_after cmd query
         = JS.split "."
             (JS.substring_to i query
              +:+ skip (i + String.length (cmd +:+ ".")) query)
  | None =>
      (forall j, JS.match_here (cmd +:+ ".") (skip j query) = None)
      /\ labels_after cmd query = JS.split "." query
  end.
Proof.
  pose proof (remove_first_ci_leftmost (cmd +:+ ".") query) as H.
  unfold labels_after.
  destruct (first_match (cmd +:+ ".") query) as [i|].
  - destruct H as (Hm & Hlt & Hr). rewrite Hr. auto.
  - destruct H as (Hno & Hr). rewrite Hr. auto.
Qed.

Example prefix_inside_the_name :
  first_match "calc." "my.calc.2.+.2" = Some 3%nat
  /\ labels_after "calc" "my.calc.2.+.2" = ["my"; "2"; "+"; "2"]
  /\ first_match "calc." "calc" = None
  /\ labels_after "calc" "calc" = ["calc"].
Proof. repeat split; reflexivity. Qed.

Lemma split_nonempty (d : ascii) (s : string) : JS.split d s <> [].
Proof.
  destruct s as [|x s]; simpl; [discriminate|].
  destruct (Ascii.eqb x d); [discriminate|].
  destruct (JS.split d s); discriminate.
Qed.

Lemma join_cons (sep w : string) (l : list string) :
  l <> [] -> JS.join sep (w :: l) = w +:+ sep +:+ JS.join sep l.
Proof. destruct l; [congruence | reflexivity]. Qed.

Lemma join_cons_char (sep : string) (x : ascii) (w : string) (l : list string) :
  JS.join sep (String x w :: l) = String x (JS.join sep (w :: l)).
Proof. destruct l; reflexivity. Qed.

(** Splitting on a character and joining with another replaces the one by
    the other and changes nothing else. *)
Lemma join_split_replace (d c : ascii) (s : string) :
  JS.join (String c EmptyString) (JS.split d s) = replace_char d c s.
Proof.
  induction s as [|x s IH]; [reflexivity|].
  cbn [JS.split replace_char]. destruct (Ascii.eqb x d).
  - rewrite join_cons by apply split_nonempty. rewrite IH. reflexivity.
  - pose proof (split_nonempty d s) as Hne.
    destruct (JS.split d s) as [|w ws]; [congruence|].
    rewrite join_cons_char, IH. reflexivity.
Qed.

Lemma length_replace_char (d c : ascii) (s : string) :
  String.length (replace_char d c s) = String.length s.
Proof. induction s as [|x s IH]; simpl; [reflexivity | now rewrite IH]. Qed.

Lemma replace_char_removes (d c : ascii) (s : string) :
  c <> d -> ~ In d (chars (replace_char d c s)).
Proof.
  intros Hcd. unfold chars. induction s as [|x s IH]; simpl; [tauto|].
  intros [H|H]; [|tauto].
  destruct (Ascii.eqb x d) eqn:E; [congruence|].
  apply Ascii.eqb_neq in E. congruence.
Qed.

Lemma replace_char_id (d c : ascii) (s : string) :
  ~ In d (chars s) -> replace_char d c s = s.
Proof.
  unfold chars. induction s as [|x s IH]; simpl; [reflexivity|].
  intros H. destruct (Ascii.eqb x d) eqn:E.
  - apply Ascii.eqb_eq in E. tauto.
  - rewrite IH by tauto. reflexivity.
Qed.

(** X2: the text a handler builds with [split('.').join(' ')] is what is
    left of the name after the prefix, with every dot replaced by a space:
    it has the same length and holds no dot, so a decimal point never
    reaches the evaluator or a prompt. *)
Theorem words_replace_dots_by_spaces (cmd query : string) :
  words_after cmd query
  = replace_char "." " " (JS.remove_first_ci (cmd +:+ ".") query)
  /\ String.length (words_after cmd query)
     = String.length (JS.remove_first_ci (cmd +:+ ".") query)
  /\ ~ In "."%char (chars (words_after cmd query)).
Proof.
  assert (E : words_after cmd query
              = replace_char "." " " (JS.remove_first_ci (cmd +:+ ".") query))
    by apply join_split_replace.
  rewrite E. split; [reflexivity|]. split.
  - apply length_replace_char.
  - apply replace_char_removes. discriminate.
Qed.

Example decimal_point_becomes_space :
  words_after "calc" "calc.1.5.+.1" = "1 5 + 1".
Proof. reflexivity. Qed.

Lemma split_app_sep (d : ascii) (w r : string) :
  ~ In d (chars w) ->
  JS.split d (w +:+ String d r) = w :: JS.split d r.
Proof.
  unfold chars. induction w as [|x w IH]; intros H.
  - change (EmptyString +:+ String d r) with (String d r).
    cbn [JS.split]. now rewrite Ascii.eqb_refl.
  - rewrite append_cons. cbn [JS.split].
    simpl in H. destruct (Ascii.eqb x d) eqn:E.
    + apply Ascii.eqb_eq in E. tauto.
    + rewrite IH by tauto. reflexivity.
Qed.

Lemma split_without_sep (d : ascii) (w : string) :
  ~ In d (chars w) -> JS.split d w = [w].
Proof.
  unfold chars. induction w as [|x w IH]; intros H; [reflexivity|].
  cbn [JS.split]. simpl in H. destruct (Ascii.eqb x d) eqn:E.
  - apply Ascii.eqb_eq in E. tauto.
  - rewrite IH by tauto. reflexivity.
Qed.

(** Labels without dots, joined by dots, split back into themselves. *)
Lemma split_join_labels (l : string) (ls : list string) :
  Forall (fun w => ~ In "."%char (chars w)) (l :: ls) ->
  JS.split "." (JS.join "." (l :: ls)) = l :: ls.
Proof.
  revert l. induction ls as [|l' ls IH]; intros l H.
  - apply split_without_sep. now inversion H.
  - rewrite join_cons by discriminate.
    change ("." +:+ JS.join "." (l' :: ls))
      with (String "." (JS.join "." (l' :: ls))).
    inversion H as [|? ? Hl Hrest]; subst.
    rewrite split_app_sep by exact Hl. now rewrite IH.
Qed.

Lemma labels_after_front (cmd pre rest : string) :
  to_lower pre = to_lower cmd ->
  labels_after cmd (pre +:+ "." +:+ rest) = JS.split "." rest.
Proof.
  intros H. unfold labels_after. rewrite <- append_assoc.
  rewrite remove_first_ci_front; [reflexivity|].
  rewrite !to_lower_app. now rewrite H.
Qed.

(** ** The prompts of [translate] and [convert] *)

(** X3: for a name [translate.<from>.<to>.<w1>. ... .<wn>], the prefix in
    any case and the labels free of dots, [handlers.translate] asks the
    gateway, under the category ['translation'], to translate the words
    joined by spaces from [<from>] to [<to>]. *)
Theorem translate_reads_languages_then_words
    (generateContent : nat -> string -> Outcome (option string))
    (pre from to : string) (words : list string) :
  to_lower pre = "translate" ->
  Forall (fun w => ~ In "."%char (chars w)) (from :: to :: words) ->
  handlers_translate generateContent
    (pre +:+ "." +:+ JS.join "." (from :: to :: words))
  = callAI generateContent (translate_prompt (JS.join " " words) from to)
      (Some "translation").
Proof.
  intros Hpre Hdots. unfold handlers_translate.
  rewrite (labels_after_front "translate" pre _ Hpre).
  rewrite (split_join_labels _ _ Hdots). reflexivity.
Qed.

Lemma translate_reads_languages_then_words_witness :
  to_lower "Translate" = "translate"
  /\ handlers_translate brief_backend "Translate.en.fr.good.morning"
     = callAI brief_backend (translate_prompt "good morning" "en" "fr")
         (Some "translation").
Proof.
  split; [reflexivity|].
  apply (translate_reads_languages_then_words brief_backend "Translate"
           "en" "fr" ["good"; "morning"]); [reflexivity|].
  repeat constructor; vm_compute; intuition discriminate.
Defined.

(** X4: when the name holds a single label after the prefix,
    [handlers.translate] still calls the gateway: the text to translate is
    empty and the target language is printed as [undefined]. *)
Theorem translate_without_target_language
    (generateContent : nat -> string -> Outcome (option string))
    (pre from : string) :
  to_lower pre = "translate" ->
  ~ In "."%char (chars from) ->
  handlers_translate generateContent (pre +:+ "." +:+ from)
  = callAI generateContent (translate_prompt EmptyString from "undefined")
      (Some "translation").
Proof.
  intros Hpre Hdots. unfold handlers_translate.
  rewrite (labels_after_front "translate" pre _ Hpre).
  rewrite (split_without_sep _ _ Hdots). reflexivity.
Qed.

Lemma translate_without_target_language_witness :
  to_lower "translate" = "translate"
  /\ handlers_translate brief_backend "translate.en"
     = callAI brief_backend (translate_prompt EmptyString "en" "undefined")
         (Some "translation").
Proof.
  split; [reflexivity|].
  apply (translate_without_target_language brief_backend "translate" "en");
    [reflexivity|].
  vm_compute. intuition discriminate.
Defined.

(** X5: [handlers.convert] reads the first three labels after the prefix
    and nothing else: two names that agree on them are converted alike. *)
Theorem convert_reads_three_labels
    (generateContent : nat -> string -> Outcome (option string))
    (query1 query2 : string) :
  take 3 (labels_after "convert" query1) = take 3 (labels_after "convert" query2) ->
  handlers_convert generateContent query1
  = handlers_convert generateContent query2.
Proof.
  intros H. unfold handlers_convert.
  assert (Hl : forall i, (i < 3)%nat ->
            labels_after "convert" query1 !! i = labels_after "convert" query2 !! i).
  { intros i Hi.
    rewrite <- (lookup_take_lt (labels_after "convert" query1) 3 i Hi).
    rewrite <- (lookup_take_lt (labels_after "convert" query2) 3 i Hi).
    now rewrite H. }
  rewrite (Hl 0%nat), (Hl 1%nat), (Hl 2%nat) by lia. reflexivity.
Qed.

Lemma convert_reads_three_labels_witness :
  take 3 (labels_after "convert" "convert.100.usd.eur")
  = take 3 (labels_after "convert" "convert.100.usd.eur.example.com")
  /\ handlers_convert brief_backend "convert.100.usd.eur"
     = handlers_convert brief_backend "convert.100.usd.eur.example.com".
Proof.
  split; [reflexivity|].
  apply (convert_reads_three_labels brief_backend); reflexivity.
Defined.

(** ** The gateway's outcomes and its bookkeeping *)

Lemma total_categories_count (category : string) (s : Stats) :
  total_categories (count_category category s) = (total_categories s + 1)%N.
Proof.
  unfold total_categories, count_category. cbn [byCategory].
  assert (Hcomm : forall (m : gmap string N) (j1 j2 : string) (z1 z2 y : N),
            j1 <> j2 -> m !! j1 = Some z1 -> m !! j2 = Some z2 ->
            (z1 + (z2 + y) = z2 + (z1 + y))%N) by (intros; lia).
  destruct (byCategory s !! category) as [x|] eqn:E; cbn [default].
  - rewrite <- (insert_delete_eq (byCategory s)).
    rewrite map_fold_insert_L;
      [|apply Hcomm | apply lookup_delete_eq].
    rewrite (map_fold_delete_L _ _ category x (byCategory s));
      [|apply Hcomm | exact E].
    cbv beta. unfold id. lia.
  - rewrite map_fold_insert_L; [|apply Hcomm | exact E].
    cbv beta. lia.
Qed.

Lemma category_count_other (category other : string) (s : Stats) :
  other <> category ->
  category_count (count_category category s) other = category_count s other.
Proof.
  intros H. unfold category_count, count_category. cbn [byCategory].
  now rewrite lookup_insert_ne.
Qed.

Lemma category_count_same (category : string) (s : Stats) :
  category_count (count_category category s) category
  = (category_count s category + 1)%N.
Proof.
  unfold category_count, count_category. cbn [byCategory].
  now rewrite lookup_insert_eq.
Qed.

(** X6: [callAI] returns exactly when the backend returns and the text to
    answer with, the backend's or ['No response generated.'] in its place,
    has at most 255 characters; the answer then carries that text as it is,
    with handler ['ai'], and the only change to the statistics is one more
    answer counted under the category. *)
Theorem callAI_returns_exactly_short_texts
    (generateContent : nat -> string -> Outcome (option string))
    (prompt : string) (category : option string) (w w' : World) (a : Answer) :
  callAI generateContent prompt category w = (Return a, w')
  <-> exists result,
        generateContent (external w) prompt = Return result
        /\ (String.length (JS.or_else result "No response generated.") <= 255)%nat
        /\ a = mkAnswer (JS.or_else result "No response generated.") false "ai"
        /\ w' = set_stats
                  (count_category (default "general" category) (stats w))
                  (tick w).
Proof.
  split.
  - intros H.
    destruct (generateContent (external w) prompt) as [result|e] eqn:E.
    + destruct (Nat.le_gt_cases
                  (String.length (JS.or_else result "No response generated."))
                  CONFIG.MAX_RESPONSE_LENGTH) as [Hle|Hgt].
      * rewrite (callAI_within_bound _ _ _ _ _ E Hle) in H.
        injection H as <- <-. exists result. auto.
      * rewrite (callAI_beyond_bound _ _ _ _ _ E Hgt) in H. discriminate.
    + rewrite (callAI_backend_failure _ _ _ _ _ E) in H. discriminate.
  - intros (result & E & Hle & -> & ->).
    apply (callAI_within_bound _ _ _ _ _ E Hle).
Qed.

(** X7: whenever the text to answer with is longer than 255 characters,
    [callAI] throws the error of the assignment to its constant, counts an
    error and no category, and returns no answer: a truncated text is never
    produced. *)
Theorem callAI_throws_on_every_long_text
    (generateContent : nat -> string -> Outcome (option string))
    (prompt : string) (category : option string) (w : World)
    (result : option string) :
  generateContent (external w) prompt = Return result ->
  (255 < String.length (JS.or_else result "No response generated."))%nat ->
  let r := callAI generateContent prompt category w in
  fst r = Throw (mkError "TypeError" "Assignment to constant variable.")
  /\ errors (stats (snd r)) = (errors (stats w) + 1)%N
  /\ byCategory (stats (snd r)) = byCategory (stats w)
  /\ (forall a, fst r <> Return a).
Proof.
  intros E Hgt r. subst r.
  rewrite (callAI_beyond_bound _ _ _ _ _ E Hgt). cbn [fst snd].
  repeat split. intros a. discriminate.
Qed.

Lemma callAI_throws_on_every_long_text_witness :
  verbose_backend (external initial_world) "Define cat" = Return (Some long_text)
  /\ fst (callAI verbose_backend "Define cat" (Some "definition") initial_world)
     = Throw (mkError "TypeError" "Assignment to constant variable.").
Proof.
  split; [reflexivity|].
  refine (proj1 (callAI_throws_on_every_long_text verbose_backend "Define cat"
                   (Some "definition") initial_world (Some long_text)
                   eq_refl _)).
  vm_compute. lia.
Defined.

(** X8: when the backend's response has no text, or an empty one, [callAI]
    answers ['No response generated.'] and counts the call under its
    category like any other answer. *)
Theorem callAI_answers_for_empty_response
    (generateContent : nat -> string -> Outcome (option string))
    (prompt : string) (category : option string) (w : World)
    (result : option string) :
  generateContent (external w) prompt = Return result ->
  result = None \/ result = Some EmptyString ->
  callAI generateContent prompt category w
  = (Return (mkAnswer "No response generated." false "ai"),
     set_stats (count_category (default "general" category) (stats w)) (tick w)).
Proof.
  intros E Hres.
  assert (Hd : JS.or_else result "No response generated."
               = "No response generated.")
    by (destruct Hres as [-> | ->]; reflexivity).
  rewrite (callAI_within_bound _ _ _ _ _ E); rewrite Hd; [reflexivity|].
  vm_compute. lia.
Qed.

Lemma callAI_answers_for_empty_response_witness :
  silent_backend (external initial_world) "Define cat" = Return (Some EmptyString)
  /\ fst (callAI silent_backend "Define cat" None initial_world)
     = Return (mkAnswer "No response generated." false "ai")
  /\ category_count
       (stats (snd (callAI silent_backend "Define cat" None initial_world)))
       "general" = 1%N.
Proof.
  split; [reflexivity|].
  rewrite (callAI_answers_for_empty_response silent_backend "Define cat" None
             initial_world (Some EmptyString) eq_refl (or_intror eq_refl)).
  split; reflexivity.
Defined.

Lemma callAI_bookkeeping
    (generateContent : nat -> string -> Outcome (option string))
    (prompt : string) (category : option string) (w : World) :
  let w' := snd (callAI generateContent prompt category w) in
  (errors (stats w') + total_categories (stats w')
   = errors (stats w) + total_categories (stats w) + 1)%N
  /\ totalQueries (stats w') = totalQueries (stats w)
  /\ cacheHits (stats w') = cacheHits (stats w)
  /\ cacheMisses (stats w') = cacheMisses (stats w)
  /\ external w' = S (external w)
  /\ (forall other, other <> default "general" category ->
        category_count (stats w') other = category_count (stats w) other).
Proof.
  intros w'. subst w'.
  destruct (generateContent (external w) prompt) as [result|e] eqn:E.
  - destruct (Nat.le_gt_cases
                (String.length (JS.or_else result "No response generated."))
                CONFIG.MAX_RESPONSE_LENGTH) as [Hle|Hgt].
    + rewrite (callAI_within_bound _ _ _ _ _ E Hle). cbn [snd set_stats stats external tick].
      rewrite total_categories_count.
      repeat split; try reflexivity; [cbn [errors count_category]; lia|].
      intros other Ho. now apply category_count_other.
    + rewrite (callAI_beyond_bound _ _ _ _ _ E Hgt). cbn [snd set_stats stats external tick].
      repeat split; try reflexivity.
      unfold total_categories. cbn [errors count_error byCategory]. lia.
  - rewrite (callAI_backend_failure _ _ _ _ _ E). cbn [snd set_stats stats external tick].
    repeat split; try reflexivity.
    unfold total_categories. cbn [errors count_error byCategory]. lia.
Qed.

(** X9: every call of [callAI] makes one backend call and counts exactly
    once: either one error or one answer under its category; the counters
    of queries, hits and misses and the counters of the other categories
    stay as they are. *)
Theorem callAI_counts_exactly_once
    (generateContent : nat -> string -> Outcome (option string))
    (prompt : string) (category : option string) (w : World) :
  let w' := snd (callAI generateContent prompt category w) in
  (errors (stats w') + total_categories (stats w')
   = errors (stats w) + total_categories (stats w) + 1)%N
  /\ totalQueries (stats w') = totalQueries (stats w)
  /\ cacheHits (stats w') = cacheHits (stats w)
  /\ cacheMisses (stats w') = cacheMisses (stats w)
  /\ external w' = S (external w)
  /\ (forall other, other <> default "general" category ->
        category_count (stats w') other = category_count (stats w) other).
Proof. apply callAI_bookkeeping. Qed.

(** ** The registry as a whole *)

Lemma callAI_return_inv
    (generateContent : nat -> string -> Outcome (option string))
    (prompt : string) (category : option string) (w w' : World) (a : Answer) :
  callAI generateContent prompt category w = (Return a, w') ->
  cached a = false /\ handler a = "ai"
  /\ w' = set_stats (count_category (default "general" category) (stats w))
            (tick w).
Proof.
  intros H.
  destruct (generateContent (external w) prompt) as [result|e] eqn:E.
  - destruct (Nat.le_gt_cases
                (String.length (JS.or_else result "No response generated."))
                CONFIG.MAX_RESPONSE_LENGTH) as [Hle|Hgt].
    + rewrite (callAI_within_bound _ _ _ _ _ E Hle) in H.
      injection H as <- <-. auto.
    + rewrite (callAI_beyond_bound _ _ _ _ _ E Hgt) in H. discriminate.
  - rewrite (callAI_backend_failure _ _ _ _ _ E) in H. discriminate.
Qed.

Lemma world_eta (w : World) :
  mkWorld (stats w) (cache w) (rateLimitMap w) (external w) = w.
Proof. now destruct w. Qed.

(** X10: the handlers that answer locally, [calc], [unit], [stats] and
    [help], return an answer on every query, under their own name, and
    leave the statistics as they are; [calc] and [unit] call the evaluator
    once, [stats] and [help] call nothing. *)
Theorem local_handlers_return_and_count_nothing
    (evaluate : nat -> string -> Outcome string)
    (generateContent : nat -> string -> Outcome (option string))
    (c : Command) (query : string) (w : World) :
  is_local c = true ->
  exists a,
    handlers evaluate generateContent c query w
    = (Return a,
       mkWorld (stats w) (cache w) (rateLimitMap w)
         (external w + match c with StatsCmd | Help => 0 | _ => 1 end))
    /\ handler a = command_name c
    /\ cached a = false.
Proof.
  intros Hl. destruct c; try discriminate; cbn [handlers].
  - rewrite handlers_calc_eq. eexists. split.
    + unfold tick. rewrite Nat.add_1_r. reflexivity.
    + now destruct (evaluate _ _).
  - rewrite handlers_unit_eq. eexists. split.
    + unfold tick. rewrite Nat.add_1_r. reflexivity.
    + now destruct (evaluate _ _).
  - rewrite Nat.add_0_r, world_eta. eexists.
    split; [reflexivity | split; reflexivity].
  - rewrite Nat.add_0_r, world_eta. eexists.
    split; [reflexivity | split; reflexivity].
Qed.

Lemma local_handlers_return_and_count_nothing_witness :
  is_local Unit = true
  /\ handlers sample_evaluate failing_backend Unit "unit.5.cm.to.inch" initial_world
     = (Return (mkAnswer "Conversion error: Value expected (char 1)" false "unit"),
        mkWorld initial_stats ∅ ∅ 1).
Proof.
  split; [reflexivity|].
  destruct (local_handlers_return_and_count_nothing sample_evaluate
              failing_backend Unit "unit.5.cm.to.inch" initial_world eq_refl)
    as (a & H & _).
  rewrite H. injection H as <- . reflexivity.
Defined.

(** X11: an answer returned by a handler that goes to the gateway carries
    the handler name ['ai'], not the command's, and the one change it leaves
    in the statistics is one more answer under the handler's category:
    ['translation'] for [translate], ['conversion'] for [convert],
    ['history'] for [onthisday], ['definition'] for [define], and the
    command's own name for the others. *)
Theorem gateway_handlers_answer_as_ai
    (evaluate : nat -> string -> Outcome string)
    (generateContent : nat -> string -> Outcome (option string))
    (c : Command) (query : string) (w w' : World) (a : Answer) :
  is_local c = false ->
  handlers evaluate generateContent c query w = (Return a, w') ->
  handler a = "ai"
  /\ cached a = false
  /\ w' = set_stats (count_category (category_of c) (stats w)) (tick w).
Proof.
  intros Hl H. destruct c; try discriminate; cbn [handlers] in H;
    apply callAI_return_inv in H as (Hc & Hh & Hw); auto.
Qed.

Lemma gateway_handlers_answer_as_ai_witness :
  is_local Onthisday = false
  /\ handlers sample_evaluate brief_backend Onthisday "onthisday.july.20"
       initial_world
     = (Return (mkAnswer "Cats sleep most of the day." false "ai"),
        set_stats (count_category "history" initial_stats) (tick initial_world))
  /\ handler (mkAnswer "Cats sleep most of the day." false "ai") = "ai".
Proof.
  split; [reflexivity|]. split; [reflexivity|].
  exact (proj1 (gateway_handlers_answer_as_ai sample_evaluate brief_backend
                  Onthisday "onthisday.july.20" initial_world _ _
                  eq_refl eq_refl)).
Defined.

Lemma gateway_calls_cons (c : Command) (query : string)
    (calls : list (Command * string)) :
  gateway_calls ((c, query) :: calls)
  = ((if is_local c then 0 else 1) + gateway_calls calls)%nat.
Proof.
  unfold gateway_calls. rewrite filter_cons. cbn [fst].
  destruct (is_local c); reflexivity.
Qed.

(** A handler that is not local is a call of the gateway, on some prompt
    and under its category. *)
Lemma gateway_handler_is_callAI
    (evaluate : nat -> string -> Outcome string)
    (generateContent : nat -> string -> Outcome (option string))
    (c : Command) (query : string) :
  is_local c = false ->
  exists prompt,
    handlers evaluate generateContent c query
    = callAI generateContent prompt (Some (category_of c)).
Proof. destruct c; try discriminate; intros _; eexists; reflexivity. Qed.

Lemma handlers_bookkeeping
    (evaluate : nat -> string -> Outcome string)
    (generateContent : nat -> string -> Outcome (option string))
    (c : Command) (query : string) (w : World) :
  let w' := snd (handlers evaluate generateContent c query w) in
  totalQueries (stats w') = totalQueries (stats w)
  /\ cacheHits (stats w') = cacheHits (stats w)
  /\ cacheMisses (stats w') = cacheMisses (stats w)
  /\ (errors (stats w') + total_categories (stats w')
      = errors (stats w) + total_categories (stats w)
        + (if is_local c then 0 else 1))%N.
Proof.
  intros w'. subst w'. destruct (is_local c) eqn:Hl.
  - destruct c; try discriminate; cbn [handlers].
    + rewrite handlers_calc_eq. cbn [snd tick stats]. repeat split; lia.
    + rewrite handlers_unit_eq. cbn [snd tick stats]. repeat split; lia.
    + cbn. repeat split; lia.
    + cbn. repeat split; lia.
  - destruct (gateway_handler_is_callAI evaluate generateContent c query Hl)
      as [prompt ->].
    destruct (callAI_bookkeeping generateContent prompt
                (Some (category_of c)) w) as (Hb & Hq & Hh & Hm & _).
    auto.
Qed.

Lemma run_handlers_bookkeeping
    (evaluate : nat -> string -> Outcome string)
    (generateContent : nat -> string -> Outcome (option string))
    (calls : list (Command * string)) :
  forall w : World,
    let w' := run_handlers evaluate generateContent calls w in
    totalQueries (stats w') = totalQueries (stats w)
    /\ cacheHits (stats w') = cacheHits (stats w)
    /\ cacheMisses (stats w') = cacheMisses (stats w)
    /\ (errors (stats w') + total_categories (stats w')
        = errors (stats w) + total_categories (stats w)
          + N.of_nat (gateway_calls calls))%N.
Proof.
  induction calls as [|[c query] calls IH]; intros w w'; subst w'.
  - cbn [run_handlers]. unfold gateway_calls. cbn. repeat split; lia.
  - cbn [run_handlers].
    destruct (IH (snd (handlers evaluate generateContent c query w)))
      as (Hq & Hh & Hm & Hb).
    destruct (handlers_bookkeeping evaluate generateContent c query w)
      as (Hq' & Hh' & Hm' & Hb').
    rewrite gateway_calls_cons.
    repeat split; try congruence.
    rewrite Hb, Hb'. destruct (is_local c); lia.
Qed.

(** X12: whatever handlers are invoked, in whatever order and with
    whatever outcomes, the counters of queries, cache hits and cache misses
    stay as they were, since no handler counts them, and the errors and
    category counts together grow by the number of calls that went to the
    gateway; started from the initial statistics, [stats] therefore answers
    [Queries:0 Cache:0/0 Errors:<n>] with [n] at most that number. *)
Theorem statistics_after_any_handler_calls
    (evaluate : nat -> string -> Outcome string)
    (generateContent : nat -> string -> Outcome (option string))
    (calls : list (Command * string)) (w : World) :
  let w' := run_handlers evaluate generateContent calls w in
  totalQueries (stats w') = totalQueries (stats w)
  /\ cacheHits (stats w') = cacheHits (stats w)
  /\ cacheMisses (stats w') = cacheMisses (stats w)
  /\ (errors (stats w') + total_categories (stats w')
      = errors (stats w) + total_categories (stats w)
        + N.of_nat (gateway_calls calls))%N
  /\ (stats w = initial_stats ->
      fst (handlers_stats w')
      = Return (mkAnswer ("Queries:0 Cache:0/0 Errors:"
                          +:+ JS.number_to_string (errors (stats w')))
                  false "stats")
      /\ (errors (stats w') <= N.of_nat (gateway_calls calls))%N).
Proof.
  intros w'.
  destruct (run_handlers_bookkeeping evaluate generateContent calls w)
    as (Hq & Hh & Hm & Hb).
  fold w' in Hq, Hh, Hm, Hb.
  repeat split; try assumption.
  - unfold handlers_stats, bind, get_stats, ret. cbn [fst].
    rewrite Hq, Hh, H. reflexivity.
  - rewrite H in Hb. unfold total_categories at 2 in Hb.
    cbn [byCategory initial_stats errors] in Hb.
    rewrite map_fold_empty in Hb. lia.
Qed.

Lemma statistics_after_any_handler_calls_witness :
  stats initial_world = initial_stats
  /\ fst (handlers_stats
            (run_handlers sample_evaluate failing_backend
               [(Fact, "fact.cats"); (Calc, "calc.2.+.2"); (Tip, "tip.sleep")]
               initial_world))
     = Return (mkAnswer "Queries:0 Cache:0/0 Errors:2" false "stats").
Proof.
  split; [reflexivity|].
  destruct (statistics_after_any_handler_calls sample_evaluate failing_backend
              [(Fact, "fact.cats"); (Calc, "calc.2.+.2"); (Tip, "tip.sleep")]
              initial_world) as (_ & _ & _ & _ & H).
  destruct (H eq_refl) as [Hs _]. rewrite Hs. reflexivity.
Defined.

(** X13: a command is named in the text of [help] exactly when the
    registry holds a handler under that name. *)
Theorem help_names_the_registry (w : World) (name : string) :
  exists a,
    handlers_help w = (Return a, w)
    /\ (In name (tl (JS.split " " (answer a)))
        <-> exists c : Command, command_name c = name).
Proof.
  eexists. split; [reflexivity|]. cbn [answer].
  match goal with
  | |- In name (tl ?l) <-> _ =>
      replace (tl l) with (map command_name all_commands)
        by (vm_compute; reflexivity)
  end.
  split.
  - intros H. apply in_map_iff in H as (c & Hc & _). now exists c.
  - intros [c <-]. apply in_map. destruct c; cbn; tauto.
Qed.

(** X14: [unit] is [calc] under another name: on the same labels both hand
    the same expression to the evaluator, and they answer with the same
    text when it returns; they differ in the handler name and in the prefix
    of the error text. *)
Theorem unit_evaluates_like_calc
    (evaluate : nat -> string -> Outcome string) (rest : string) (w : World) :
  exists a b,
    handlers_calc evaluate ("calc." +:+ rest) w = (Return a, tick w)
    /\ handlers_unit evaluate ("unit." +:+ rest) w = (Return b, tick w)
    /\ handler a = "calc" /\ handler b = "unit"
    /\ (forall result,
          evaluate (external w) (replace_char "." " " rest) = Return result ->
          answer a = replace_char "." " " rest +:+ " = " +:+ result
          /\ answer b = answer a)
    /\ (forall error,
          evaluate (external w) (replace_char "." " " rest) = Throw error ->
          answer a = "Math error: " +:+ message error
          /\ answer b = "Conversion error: " +:+ message error).
Proof.
  assert (Hc : words_after "calc" ("calc." +:+ rest) = replace_char "." " " rest).
  { unfold words_after.
    change ("calc." +:+ rest) with ("calc" +:+ "." +:+ rest).
    rewrite labels_after_front by reflexivity. apply join_split_replace. }
  assert (Hu : words_after "unit" ("unit." +:+ rest) = replace_char "." " " rest).
  { unfold words_after.
    change ("unit." +:+ rest) with ("unit" +:+ "." +:+ rest).
    rewrite labels_after_front by reflexivity. apply join_split_replace. }
  do 2 eexists.
  split; [apply handlers_calc_eq|]. split; [apply handlers_unit_eq|].
  rewrite Hc, Hu.
  destruct (evaluate (external w) (replace_char "." " " rest)) as [r|e];
    cbn [handler answer].
  - split; [reflexivity|]. split; [reflexivity|]. split.
    + intros result Heq. injection Heq as <-. split; reflexivity.
    + intros error Heq. discriminate.
  - split; [reflexivity|]. split; [reflexivity|]. split.
    + intros result Heq. discriminate.
    + intros error Heq. injection Heq as <-. split; reflexivity.
Qed.

Lemma words_after_no_dot (cmd query : string) :
  ~ In "."%char (chars (words_after cmd query)).
Proof.
  unfold words_after, labels_after. rewrite join_split_replace.
  apply replace_char_removes. discriminate.
Qed.

(** X15: [calc] and [unit] call the evaluator only on expressions that hold
    no dot: two evaluators that agree on those give the same outcome. *)
Theorem evaluator_called_on_dotless_expressions
    (evaluate1 evaluate2 : nat -> string -> Outcome string)
    (query : string) (w : World) :
  (forall n expression,
     ~ In "."%char (chars expression) ->
     evaluate1 n expression = evaluate2 n expression) ->
  handlers_calc evaluate1 query w = handlers_calc evaluate2 query w
  /\ handlers_unit evaluate1 query w = handlers_unit evaluate2 query w.
Proof.
  intros H. rewrite !handlers_calc_eq, !handlers_unit_eq.
  rewrite !H by apply words_after_no_dot. split; reflexivity.
Qed.

Lemma evaluator_called_on_dotless_expressions_witness :
  fussy_evaluate 0 "1.5" = Return "dotted"
  /\ handlers_calc sample_evaluate "calc.1.5" initial_world
     = handlers_calc fussy_evaluate "calc.1.5" initial_world.
Proof.
  split; [reflexivity|].
  apply (evaluator_called_on_dotless_expressions sample_evaluate fussy_evaluate).
  intros n expression Hdot. unfold fussy_evaluate.
  destruct (existsb (Ascii.eqb ".") (chars expression)) eqn:E; [|reflexivity].
  exfalso. apply existsb_exists in E as (x & Hx & Hd).
  apply Ascii.eqb_eq in Hd. subst x. exact (Hdot Hx).
Defined.

Lemma words_after_front (cmd pre rest : string) :
  to_lower pre = to_lower cmd ->
  words_after cmd (pre +:+ "." +:+ rest) = replace_char "." " " rest.
Proof.
  intros H. unfold words_after. rewrite (labels_after_front _ _ _ H).
  apply join_split_replace.
Qed.

(** X16: the case in which the command label is written never matters to
    its handler: a name that begins with the label in any case is handled
    exactly as the same name with the label in lower case, while the case
    of what follows is kept. *)
Theorem handlers_ignore_case_of_command_label
    (evaluate : nat -> string -> Outcome string)
    (generateContent : nat -> string -> Outcome (option string))
    (c : Command) (pre rest : string) :
  to_lower pre = command_name c ->
  handlers evaluate generateContent c (pre +:+ "." +:+ rest)
  = handlers evaluate generateContent c (command_name c +:+ "." +:+ rest).
Proof.
  intros H.
  assert (Hw : words_after (command_name c) (pre +:+ "." +:+ rest)
               = words_after (command_name c) (command_name c +:+ "." +:+ rest)).
  { rewrite !words_after_front; [reflexivity | | ];
      destruct c; first [exact H | reflexivity]. }
  assert (Hl : labels_after (command_name c) (pre +:+ "." +:+ rest)
               = labels_after (command_name c) (command_name c +:+ "." +:+ rest)).
  { rewrite !labels_after_front; [reflexivity | | ];
      destruct c; first [exact H | reflexivity]. }
  destruct c; cbn [handlers command_name] in *;
    unfold handlers_calc, handlers_translate, handlers_code, handlers_timezone,
      handlers_convert, handlers_spell, handlers_onthisday, handlers_unit,
      handlers_acronym, handlers_tip, handlers_weather, handlers_fact,
      handlers_define;
    cbv zeta; rewrite ?Hw, ?Hl; reflexivity.
Qed.

Lemma handlers_ignore_case_of_command_label_witness :
  to_lower "WeAtHeR" = command_name Weather
  /\ handlers sample_evaluate brief_backend Weather "WeAtHeR.Paris"
     = handlers sample_evaluate brief_backend Weather "weather.Paris".
Proof.
  split; [reflexivity|].
  exact (handlers_ignore_case_of_command_label sample_evaluate brief_backend
           Weather "WeAtHeR" "Paris" eq_refl).
Defined.

(** ** The expression of [calc] *)

(** C5: [handlers.calc] hands to the evaluator the name without its prefix
    [calc.], split on dots and joined by spaces; for a name that begins
    with the prefix in any case this is what follows the prefix with every
    dot replaced by a space.  Whenever the evaluator accepts that
    expression, the handler returns, without throwing, the answer whose
    text is the expression, [" = "] and the evaluator's result, with
    handler ['calc']; the query [calc.2.+.2] is parsed to the expression
    [2 + 2] and, the evaluator giving 4, answered by [2 + 2 = 4]. *)
Theorem calc_answers_valid_expression
    (evaluate : nat -> string -> Outcome string) (w : World) :
  (forall query result,
     evaluate (external w)
       (JS.join " " (JS.split "." (JS.remove_first_ci "calc." query)))
     = Return result ->
     handlers_calc evaluate query w
     = (Return (mkAnswer
                  (JS.join " " (JS.split "." (JS.remove_first_ci "calc." query))
                   +:+ " = " +:+ result)
                  false "calc"), tick w))
  /\ (forall pre rest result,
        to_lower pre = "calc" ->
        evaluate (external w) (replace_char "." " " rest) = Return result ->
        handlers_calc evaluate (pre +:+ "." +:+ rest) w
        = (Return (mkAnswer (replace_char "." " " rest +:+ " = " +:+ result)
                     false "calc"), tick w))
  /\ JS.join " " (JS.split "." (JS.remove_first_ci "calc." "calc.2.+.2"))
     = "2 + 2"
  /\ (evaluate (external w) "2 + 2" = Return "4" ->
      handlers_calc evaluate "calc.2.+.2" w
      = (Return (mkAnswer "2 + 2 = 4" false "calc"), tick w)).
Proof.
  split; [|split; [|split]].
  - intros query result H. rewrite handlers_calc_eq.
    unfold words_after, labels_after.
    change ("calc" +:+ ".") with "calc.". rewrite H. reflexivity.
  - intros pre rest result Hpre H. rewrite handlers_calc_eq.
    rewrite (words_after_front "calc" pre rest Hpre), H. reflexivity.
  - reflexivity.
  - intros H. rewrite handlers_calc_eq.
    change (words_after "calc" "calc.2.+.2") with "2 + 2".
    rewrite H. reflexivity.
Qed.

Lemma calc_answers_valid_expression_witness :
  to_lower "Calc" = "calc"
  /\ sample_evaluate (external initial_world) (replace_char "." " " "2.+.2")
     = Return "4"
  /\ handlers_calc sample_evaluate "Calc.2.+.2" initial_world
     = (Return (mkAnswer "2 + 2 = 4" false "calc"), tick initial_world).
Proof.
  split; [reflexivity|]. split; [reflexivity|].
  exact (proj1 (proj2 (calc_answers_valid_expression sample_evaluate
                         initial_world))
           "Calc" "2.+.2" "4" eq_refl eq_refl).
Defined.
